(** * Password strength checker: a shallow embedding of [app.py]

    The core functions of [src/NewPythonProject/app.py] are embedded here:
    [calculate_entropy], [estimate_crack_time], [check_password_strength],
    [generate_password] and [check_common_breach].  The Streamlit page that
    calls them is presentation code and is left out.

    Modelling choices.
    - A Python [str] is a sequence of Unicode code points: [list Z].
    - [str.islower], [str.isupper], [str.isdigit] and [str.lower] read the
      interpreter's Unicode tables, which are not part of the repository:
      they are the fields of the class [UnicodeData], whose laws pin down
      their behaviour on ASCII.
    - A Python [float] is modelled by a real number, so roundings are
      exact.  The one floating-point behaviour kept is the one the control
      flow depends on: [**] raises [OverflowError] when its result does not
      fit a binary64 number.
    - An exception that leaves a function is the outcome [Raised]; Python's
      [None] is the [None] of an option.
    - The result dictionary and the [criteria] dictionary have fixed keys:
      they are records.  The texts of the program (labels, feedback lines)
      are kept as written, as byte strings.
    - [secrets.choice] draws from the operating system's random source: the
      draws are the field of the class [SecureRandom]. *)

From Stdlib Require Import ZArith List String Ascii Bool Lia.
From Stdlib Require Import DecimalString.
From Stdlib Require Import Reals Lra.
Import ListNotations.

Local Open Scope string_scope.
Local Open Scope list_scope.
Local Open Scope Z_scope.

(** ** Python values *)

Definition codepoint := Z.
Definition pystr := list codepoint.

(** An ASCII literal as a Python string (one code point per byte). *)
Definition str (s : string) : pystr :=
  map (fun a => Z.of_nat (nat_of_ascii a)) (list_ascii_of_string s).

Definition len (s : pystr) : Z := Z.of_nat (List.length s).

Inductive exn : Type :=
| OverflowError
| ValueError
| IndexError.

Inductive outcome (A : Type) : Type :=
| Returned (a : A)
| Raised (e : exn).

Arguments Returned {A} a.
Arguments Raised {A} e.

Definition bind {A B : Type} (m : outcome A) (k : A -> outcome B) : outcome B :=
  match m with
  | Returned a => k a
  | Raised e => Raised e
  end.

Notation "x <- m ;; k" := (bind m (fun x => k))
  (at level 61, m at next level, right associativity).

(** ** The [string] module and the string built-ins *)

Definition in_range (lo hi c : Z) : bool := (lo <=? c) && (c <=? hi).

Definition ascii_lowercase : pystr := str "abcdefghijklmnopqrstuvwxyz".
Definition ascii_uppercase : pystr := str "ABCDEFGHIJKLMNOPQRSTUVWXYZ".
Definition digits : pystr := str "0123456789".

(** [string.punctuation]: the 32 ASCII characters
    ! .. /   : .. @   [ .. `   { .. ~  *)
Definition punctuation : pystr :=
  [33; 34; 35; 36; 37; 38; 39; 40; 41; 42; 43; 44; 45; 46; 47;
   58; 59; 60; 61; 62; 63; 64;
   91; 92; 93; 94; 95; 96;
   123; 124; 125; 126].

(** [c in s] for a one-character [c]. *)
Definition char_in (c : codepoint) (s : pystr) : bool :=
  existsb (Z.eqb c) s.

Fixpoint startswith (s pre : pystr) : bool :=
  match pre, s with
  | [], _ => true
  | _ :: _, [] => false
  | a :: pre', b :: s' => (a =? b) && startswith s' pre'
  end.

(** [sub in s]: substring test. *)
Fixpoint contains (s sub : pystr) : bool :=
  startswith s sub ||
  match s with
  | [] => false
  | _ :: s' => contains s' sub
  end.

Fixpoint str_eqb (a b : pystr) : bool :=
  match a, b with
  | [], [] => true
  | x :: a', y :: b' => (x =? y) && str_eqb a' b'
  | _, _ => false
  end.

(** [any(f(x) for x in xs)] *)
Definition any {A : Type} (f : A -> bool) (xs : list A) : bool := existsb f xs.

Definition is_ascii (c : codepoint) : Prop := 0 <= c < 128.

Definition ascii_lower (c : codepoint) : codepoint :=
  if in_range 65 90 c then c + 32 else c.

(** The interpreter's Unicode database, as far as the program reads it.
    The laws state what CPython does on U+0000..U+007F. *)
Class UnicodeData : Type := {
  py_islower : codepoint -> bool;
  py_isupper : codepoint -> bool;
  py_isdigit : codepoint -> bool;
  py_lower : pystr -> pystr;
  islower_ascii : forall c, is_ascii c -> py_islower c = in_range 97 122 c;
  isupper_ascii : forall c, is_ascii c -> py_isupper c = in_range 65 90 c;
  isdigit_ascii : forall c, is_ascii c -> py_isdigit c = in_range 48 57 c;
  lower_ascii : forall s, Forall is_ascii s -> py_lower s = map ascii_lower s
}.

(** [re.search(r'(.)\1{2,}', s)]: some character other than a line feed
    (the dot does not match it) stands three times in a row. *)
Fixpoint has_repeated_run (s : pystr) : bool :=
  match s with
  | a :: ((b :: c :: _) as t) =>
      (negb (a =? 10) && (a =? b) && (b =? c)) || has_repeated_run t
  | _ => false
  end.

Definition py_max (a b : Z) : Z := Z.max a b.
Definition py_min (a b : Z) : Z := Z.min a b.

(** [f"{n}"] for an integer. *)
Definition format_int (n : Z) : string := NilZero.string_of_int (Z.to_int n).

(** ** The scoring rules of [check_password_strength] *)

Record criteria : Type := {
  crit_length : bool;
  crit_lowercase : bool;
  crit_uppercase : bool;
  crit_numbers : bool;
  crit_special : bool
}.

(** The local variables [score] and [feedback] that the checks update. *)
Record tally : Type := {
  t_score : Z;
  t_feedback : list string
}.

Definition add (d : Z) (line : string) (t : tally) : tally :=
  {| t_score := t_score t + d; t_feedback := t_feedback t ++ [line] |}.

(** A branch that only appends a feedback line. *)
Definition say (line : string) (t : tally) : tally :=
  {| t_score := t_score t; t_feedback := t_feedback t ++ [line] |}.

Definition common_patterns : list pystr :=
  [str "123"; str "abc"; str "password"; str "qwerty"; str "111"; str "000"].

Section Scoring.
Context {U : UnicodeData}.

Definition has_lower (p : pystr) : bool := any py_islower p.
Definition has_upper (p : pystr) : bool := any py_isupper p.
Definition has_digit (p : pystr) : bool := any py_isdigit p.
Definition has_special (p : pystr) : bool :=
  any (fun c => char_in c punctuation) p.
Definition has_common (p : pystr) : bool :=
  any (fun pattern => contains (py_lower p) pattern) common_patterns.

Definition length_check (p : pystr) (t : tally) : tally :=
  if 12 <=? len p then add 25 "✓ Excellent length (12+ characters)" t
  else if 8 <=? len p then add 15 "✓ Good length (8+ characters)" t
  else say "✗ Too short (minimum 8 characters recommended)" t.

Definition lowercase_check (p : pystr) (t : tally) : tally :=
  if has_lower p then add 10 "✓ Contains lowercase letters" t
  else say "✗ Missing lowercase letters" t.

Definition uppercase_check (p : pystr) (t : tally) : tally :=
  if has_upper p then add 10 "✓ Contains uppercase letters" t
  else say "✗ Missing uppercase letters" t.

Definition numbers_check (p : pystr) (t : tally) : tally :=
  if has_digit p then add 10 "✓ Contains numbers" t
  else say "✗ Missing numbers" t.

Definition special_check (p : pystr) (t : tally) : tally :=
  if has_special p then add 15 "✓ Contains special characters" t
  else say "✗ Missing special characters" t.

Definition common_check (p : pystr) (t : tally) : tally :=
  if has_common p
  then add (-10) "⚠ Contains common patterns (avoid sequences like '123', 'abc', 'password')" t
  else add 10 "✓ No common patterns detected" t.

Definition repeated_check (p : pystr) (t : tally) : tally :=
  if has_repeated_run p then add (-5) "⚠ Contains repeated characters" t
  else add 10 "✓ No excessive character repetition" t.

(** The seven checks, in the order of the source. *)
Definition run_checks (p : pystr) : tally :=
  repeated_check p
    (common_check p
      (special_check p
        (numbers_check p
          (uppercase_check p
            (lowercase_check p
              (length_check p {| t_score := 0; t_feedback := [] |})))))).

Definition raw_score (p : pystr) : Z := t_score (run_checks p).

Definition criteria_of (p : pystr) : criteria :=
  {| crit_length := 8 <=? len p;
     crit_lowercase := has_lower p;
     crit_uppercase := has_upper p;
     crit_numbers := has_digit p;
     crit_special := has_special p |}.

(** The alphabet size of [calculate_entropy]. *)
Definition charset_size (p : pystr) : Z :=
  let charset_size := 0 in
  let charset_size := if any py_islower p then charset_size + 26 else charset_size in
  let charset_size := if any py_isupper p then charset_size + 26 else charset_size in
  let charset_size := if any py_isdigit p then charset_size + 10 else charset_size in
  let charset_size :=
    if any (fun c => char_in c punctuation) p then charset_size + 32 else charset_size in
  let charset_size := if any (fun c => 127 <? c) p then charset_size + 100 else charset_size in
  charset_size.

End Scoring.

(** ** Floating-point operations

    [math.log2] raises [ValueError] outside its domain.  [x ** y] raises
    [OverflowError] when the result is not below 2^1024, the first power of two
    beyond the binary64 range: for a base of 2 that is every exponent from
    1024.0 on, and no binary64 exponent below 1024.0 comes close enough to
    overflow.  [int] truncates towards zero. *)

Definition float_limit : Z := 2 ^ 1024.

Definition math_log2 (x : R) : outcome R :=
  if Rlt_dec 0 x then Returned (Rlog 2 x) else Raised ValueError.

Definition float_pow (x y : R) : outcome R :=
  if Rlt_dec (Rpower x y) (IZR float_limit)
  then Returned (Rpower x y)
  else Raised OverflowError.

Definition py_int (x : R) : Z :=
  if Rle_dec 0 x then Zfloor x else Zceil x.

Local Open Scope R_scope.

Section Entropy.
Context {U : UnicodeData}.

Definition calculate_entropy (password : pystr) : outcome R :=
  let charset_size := charset_size password in
  if (charset_size =? 0)%Z then Returned 0
  else
    l <- math_log2 (IZR charset_size) ;;
    let entropy := IZR (len password) * l in
    Returned entropy.

(** The integer [2 ** entropy] of a password (lemma [keyspace_entropy]). *)
Definition keyspace (p : pystr) : Z :=
  if (charset_size p =? 0)%Z then 1%Z else (charset_size p ^ len p)%Z.

End Entropy.

Definition estimate_crack_time (entropy : R) : outcome string :=
  let guesses_per_second := 1e9 in
  total_combinations <- float_pow 2 entropy ;;
  let seconds := total_combinations / (2 * guesses_per_second) in
  if Rlt_dec seconds 1 then Returned "Less than a second"
  else if Rlt_dec seconds 60 then
    Returned (format_int (py_int seconds) ++ " seconds")%string
  else if Rlt_dec seconds 3600 then
    Returned (format_int (py_int (seconds / 60)) ++ " minutes")%string
  else if Rlt_dec seconds 86400 then
    Returned (format_int (py_int (seconds / 3600)) ++ " hours")%string
  else if Rlt_dec seconds 2592000 then
    Returned (format_int (py_int (seconds / 86400)) ++ " days")%string
  else if Rlt_dec seconds 31536000 then
    Returned (format_int (py_int (seconds / 2592000)) ++ " months")%string
  else
    let years := py_int (seconds / 31536000) in
    if (1000000 <? years)%Z then Returned "Millions of years"
    else if (1000 <? years)%Z then
      Returned (format_int (py_int (IZR years / 1000)) ++ "k+ years")%string
    else Returned (format_int years ++ " years")%string.

(** The same buckets for a keyspace that is an integer [n], in integer
    arithmetic: it is what [estimate_crack_time] computes at an entropy [e]
    with [2 ** e = n] (lemma [estimate_crack_time_keyspace]), and it runs. *)
Definition crack_time_of_keyspace (n : Z) : outcome string :=
  let d := 2000000000%Z in
  if (n <? float_limit)%Z then
    if (n <? 1 * d)%Z then Returned "Less than a second"
    else if (n <? 60 * d)%Z then
      Returned (format_int (n / d) ++ " seconds")%string
    else if (n <? 3600 * d)%Z then
      Returned (format_int (n / (d * 60)) ++ " minutes")%string
    else if (n <? 86400 * d)%Z then
      Returned (format_int (n / (d * 3600)) ++ " hours")%string
    else if (n <? 2592000 * d)%Z then
      Returned (format_int (n / (d * 86400)) ++ " days")%string
    else if (n <? 31536000 * d)%Z then
      Returned (format_int (n / (d * 2592000)) ++ " months")%string
    else
      let years := (n / (d * 31536000))%Z in
      if (1000000 <? years)%Z then Returned "Millions of years"
      else if (1000 <? years)%Z then
        Returned (format_int (years / 1000) ++ "k+ years")%string
      else Returned (format_int years ++ " years")%string
  else Raised OverflowError.

(** ** [check_password_strength] *)

Record analysis : Type := {
  score : Z;
  strength : string;
  color : string;
  emoji : string;
  feedback : list string;
  criteria_map : criteria;
  entropy : R;
  crack_time : string
}.

(** The block "Determine strength level": label, colour and emoji. *)
Definition strength_level (score : Z) : string * string * string :=
  if (75 <=? score)%Z then ("Strong", "green", "🟢")
  else if (50 <=? score)%Z then ("Medium", "orange", "🟡")
  else ("Weak", "red", "🔴").

Section Strength.
Context {U : UnicodeData}.

(** [None] is Python's [None]; [Raised] is an exception leaving the call. *)
Definition check_password_strength (password : pystr)
  : outcome (option analysis) :=
  match password with
  | [] => Returned None
  | _ :: _ =>
      let t := run_checks password in
      let score := t_score t in
      entropy <- calculate_entropy password ;;
      crack_time <- estimate_crack_time entropy ;;
      let '(strength, color, emoji) := strength_level score in
      Returned (Some
        {| score := py_max 0 (py_min 100 score);
           strength := strength;
           color := color;
           emoji := emoji;
           feedback := t_feedback t;
           criteria_map := criteria_of password;
           entropy := entropy;
           crack_time := crack_time |})
  end.

End Strength.

Local Close Scope R_scope.

(** ** [generate_password] *)

(** The operating system's random source.  [randbelow k n] is the value of
    the [k]-th draw of a call when it is asked for a number below [n]; the
    law is the contract of [secrets.randbelow]. *)
Class SecureRandom : Type := {
  randbelow : nat -> nat -> nat;
  randbelow_lt : forall k n, (0 < n)%nat -> (randbelow k n < n)%nat
}.

Section Generator.
Context {G : SecureRandom}.

(** [secrets.choice(seq)] at draw [k]: [seq[randbelow(len(seq))]]. *)
Definition secrets_choice (seq : pystr) (k : nat) : outcome codepoint :=
  match nth_error seq (randbelow k (List.length seq)) with
  | Some c => Returned c
  | None => Raised IndexError
  end.

(** [''.join(secrets.choice(charset) for _ in range(n))], the draws
    numbered from [k]. *)
Fixpoint join_choices (charset : pystr) (k n : nat) : outcome pystr :=
  match n with
  | O => Returned []
  | S n' =>
      c <- secrets_choice charset k ;;
      rest <- join_choices charset (S k) n' ;;
      Returned (c :: rest)
  end.

Definition build_charset (use_upper use_lower use_digits use_special : bool)
  : pystr :=
  let charset := [] in
  let charset := if use_lower then charset ++ ascii_lowercase else charset in
  let charset := if use_upper then charset ++ ascii_uppercase else charset in
  let charset := if use_digits then charset ++ digits else charset in
  let charset := if use_special then charset ++ punctuation else charset in
  charset.

(** [range(length)] is empty for a negative [length]. *)
Definition generate_password
    (length : Z) (use_upper use_lower use_digits use_special : bool)
  : outcome (option pystr) :=
  let charset := build_charset use_upper use_lower use_digits use_special in
  match charset with
  | [] => Returned None
  | _ :: _ =>
      password <- join_choices charset 0 (Z.to_nat length) ;;
      Returned (Some password)
  end.

End Generator.

(** ** [check_common_breach] *)

Definition common_breached : list pystr :=
  [str "password"; str "123456"; str "12345678"; str "qwerty"; str "abc123";
   str "monkey"; str "1234567"; str "letmein"; str "trustno1"; str "dragon";
   str "baseball"; str "iloveyou"; str "master"; str "sunshine"; str "ashley";
   str "bailey"; str "passw0rd"; str "shadow"; str "123123"; str "654321";
   str "superman"; str "qazwsx"; str "michael"; str "football"; str "password1"].

Section Breach.
Context {U : UnicodeData}.

(** [x in lst] on a list of strings compares with [==]. *)
Definition check_common_breach (password : pystr) : bool :=
  existsb (str_eqb (py_lower password)) common_breached.

End Breach.

(** ** Sample instances

    [latin1_data] agrees with CPython's tables on U+0000..U+00FF and treats
    every other code point as caseless and without a digit value; it is used
    to run the functions on Latin-1 inputs.  [counting_source] is a source
    whose [k]-th draw is [7 * k + 3], reduced below the bound. *)

Definition latin1_islower (c : codepoint) : bool :=
  in_range 97 122 c || (c =? 170) || (c =? 181) || (c =? 186)
  || in_range 223 246 c || in_range 248 255 c.

Definition latin1_isupper (c : codepoint) : bool :=
  in_range 65 90 c || in_range 192 214 c || in_range 216 222 c.

Definition latin1_isdigit (c : codepoint) : bool :=
  in_range 48 57 c || (c =? 178) || (c =? 179) || (c =? 185).

Definition latin1_lower_char (c : codepoint) : codepoint :=
  if latin1_isupper c then c + 32 else c.

Definition latin1_data : UnicodeData.
Proof.
  refine {| py_islower := latin1_islower;
            py_isupper := latin1_isupper;
            py_isdigit := latin1_isdigit;
            py_lower := map latin1_lower_char |}.
  - intros c [H0 H1]. unfold latin1_islower, in_range.
    repeat match goal with
           | |- context [(?a <=? ?b)] => destruct (Z.leb_spec a b)
           | |- context [(?a =? ?b)] => destruct (Z.eqb_spec a b)
           end; simpl; try reflexivity; lia.
  - intros c [H0 H1]. unfold latin1_isupper, in_range.
    repeat match goal with
           | |- context [(?a <=? ?b)] => destruct (Z.leb_spec a b)
           end; simpl; try reflexivity; lia.
  - intros c [H0 H1]. unfold latin1_isdigit, in_range.
    repeat match goal with
           | |- context [(?a <=? ?b)] => destruct (Z.leb_spec a b)
           | |- context [(?a =? ?b)] => destruct (Z.eqb_spec a b)
           end; simpl; try reflexivity; lia.
  - intros s Hs. apply map_ext_in. intros c Hc.
    rewrite Forall_forall in Hs. destruct (Hs c Hc) as [H0 H1].
    unfold latin1_lower_char, ascii_lower, latin1_isupper, in_range.
    repeat match goal with
           | |- context [(?a <=? ?b)] => destruct (Z.leb_spec a b)
           end; simpl; try reflexivity; lia.
Defined.

Definition counting_source : SecureRandom.
Proof.
  refine {| randbelow := fun k n => ((7 * k + 3) mod n)%nat |}.
  intros k n Hn. apply Nat.mod_upper_bound. lia.
Defined.

(** ** The page code that calls the core functions *)

(** The "Detailed Analysis" loop of the first tab: a feedback line goes to
    [st.success] when it starts with the check mark, to [st.error] when it
    starts with the cross, to [st.warning] otherwise. *)
Inductive widget : Type :=
| st_success (item : string)
| st_error (item : string)
| st_warning (item : string).

Definition show_feedback_item (item : string) : widget :=
  if String.prefix "✓" item then st_success item
  else if String.prefix "✗" item then st_error item
  else st_warning item.

Definition show_feedback (items : list string) : list widget :=
  map show_feedback_item items.

(** [if generated_pwd:] in the second tab: [None] and the empty string are
    false. *)
Definition truthy (generated_pwd : option pystr) : bool :=
  match generated_pwd with
  | None => false
  | Some [] => false
  | Some (_ :: _) => true
  end.

(** [max(iterable, key=...)]: the first element whose key is the largest;
    [ValueError] on an empty iterable. *)
Fixpoint max_from {A : Type} (key : A -> Z) (best : A) (rest : list A) : A :=
  match rest with
  | [] => best
  | x :: rest' =>
      if key best <? key x then max_from key x rest'
      else max_from key best rest'
  end.

Definition max_by_key {A : Type} (key : A -> Z) (xs : list A) : outcome A :=
  match xs with
  | [] => Raised ValueError
  | x :: rest => Returned (max_from key x rest)
  end.

(** [best_idx] of the third tab, on the column of scores:
    [max(range(len(results)), key=lambda i: results[i]['Score'])]. *)
Definition best_idx (scores : list Z) : outcome nat :=
  max_by_key (fun i => nth i scores 0) (seq 0 (List.length scores)).

(** ** Vocabulary of the statements *)

(** The contribution of a class: [w] when present, nothing otherwise. *)
Definition weight (present : bool) (w : Z) : Z := if present then w else 0.

(** The points of the length check. *)
Definition length_points (n : Z) : Z :=
  if 12 <=? n then 25 else if 8 <=? n then 15 else 0.

(** A character is allowed by the flags when it lies in the symbol set of a
    selected class. *)
Definition allowed (use_upper use_lower use_digits use_special : bool)
    (c : codepoint) : Prop :=
  (use_lower = true /\ 97 <= c <= 122) \/
  (use_upper = true /\ 65 <= c <= 90) \/
  (use_digits = true /\ 48 <= c <= 57) \/
  (use_special = true /\ In c punctuation).

(** The number of criteria of the dictionary that are not met. *)
Definition unmet (c : criteria) : nat :=
  ((if crit_length c then 0 else 1) + (if crit_lowercase c then 0 else 1)
   + (if crit_uppercase c then 0 else 1) + (if crit_numbers c then 0 else 1)
   + (if crit_special c then 0 else 1))%nat.

Definition is_error (w : widget) : bool :=
  match w with st_error _ => true | _ => false end.

Definition is_warning (w : widget) : bool :=
  match w with st_warning _ => true | _ => false end.

Definition is_success (w : widget) : bool :=
  match w with st_success _ => true | _ => false end.

(** The number of scored classes present in a password. *)
Definition classes_present {U : UnicodeData} (p : pystr) : Z :=
  weight (has_lower p) 1 + weight (has_upper p) 1
  + weight (has_digit p) 1 + weight (has_special p) 1.

(** The analysis of ["P@ssw0rd123"]: 94 symbols, 11 characters, a keyspace
    of 94^11, about 80,275 years at 10^9 guesses per second. *)
Definition sample_analysis : analysis :=
  {| score := 60;
     strength := "Medium";
     color := "orange";
     emoji := "🟡";
     feedback :=
       ["✓ Good length (8+ characters)";
        "✓ Contains lowercase letters";
        "✓ Contains uppercase letters";
        "✓ Contains numbers";
        "✓ Contains special characters";
        "⚠ Contains common patterns (avoid sequences like '123', 'abc', 'password')";
        "✓ No excessive character repetition"];
     criteria_map :=
       {| crit_length := true; crit_lowercase := true; crit_uppercase := true;
          crit_numbers := true; crit_special := true |};
     entropy := (11 * Rlog 2 94)%R;
     crack_time := "80k+ years" |}.

(** * Properties *)

(** ** Strings and lists *)

Lemma str_eqb_eq (a b : pystr) : str_eqb a b = true <-> a = b.
Proof.
  revert b. induction a as [|x a IH]; intros [|y b]; simpl;
    try (split; [discriminate | intros E; discriminate E]);
    try (split; reflexivity).
  rewrite andb_true_iff, Z.eqb_eq, IH. split.
  - intros [-> ->]. reflexivity.
  - intros E. injection E as -> ->. split; reflexivity.
Qed.

Lemma char_in_In (c : codepoint) (s : pystr) : char_in c s = true <-> In c s.
Proof.
  unfold char_in. rewrite existsb_exists. split.
  - intros [x [Hx E]]. apply Z.eqb_eq in E. subst. exact Hx.
  - intros H. exists c. split; [exact H | apply Z.eqb_refl].
Qed.

Lemma any_exists {A : Type} (f : A -> bool) (xs : list A) :
  any f xs = true <-> exists x, In x xs /\ f x = true.
Proof. apply existsb_exists. Qed.

Lemma any_app {A : Type} (f : A -> bool) (xs ys : list A) :
  any f (xs ++ ys) = any f xs || any f ys.
Proof. apply existsb_app. Qed.

Lemma any_app_mono {A : Type} (f : A -> bool) (xs ys : list A) :
  any f xs = true -> any f (xs ++ ys) = true.
Proof. intros H. rewrite any_app, H. reflexivity. Qed.

Lemma any_repeat {A : Type} (f : A -> bool) (x : A) (n : nat) :
  any f (repeat x (S n)) = f x.
Proof.
  induction n as [|n IH].
  - simpl. apply orb_false_r.
  - change (repeat x (S (S n))) with (x :: repeat x (S n)).
    unfold any in *. simpl existsb at 1. fold (repeat x (S n)).
    change (f x || existsb f (repeat x (S n)) = f x).
    rewrite IH. apply orb_diag.
Qed.

Lemma len_app (a b : pystr) : len (a ++ b) = len a + len b.
Proof. unfold len. rewrite length_app. lia. Qed.

Lemma len_nonneg (a : pystr) : 0 <= len a.
Proof. unfold len. lia. Qed.

(** A run of three in a prefix is still there after appending. *)
Lemma has_repeated_run_app (p s : pystr) :
  has_repeated_run p = true -> has_repeated_run (p ++ s) = true.
Proof.
  induction p as [|a p IH]; [discriminate|].
  destruct p as [|b [|c p]]; try discriminate.
  intros H. change (has_repeated_run (a :: b :: c :: p)) with
    ((negb (a =? 10) && (a =? b) && (b =? c)) || has_repeated_run (b :: c :: p)) in H.
  change (has_repeated_run ((a :: b :: c :: p) ++ s)) with
    ((negb (a =? 10) && (a =? b) && (b =? c)) || has_repeated_run ((b :: c :: p) ++ s)).
  apply orb_true_iff in H. apply orb_true_iff.
  destruct H as [H|H]; [left; exact H | right; apply IH; exact H].
Qed.

(** ** Real arithmetic behind the crack-time buckets *)

Local Open Scope R_scope.

Lemma Rdiv_IZR_lt (n d k : Z) :
  (0 < d)%Z -> (IZR n / IZR d < IZR k <-> (n < k * d)%Z).
Proof.
  intros Hd. assert (Hd' : 0 < IZR d) by (apply IZR_lt; exact Hd).
  split.
  - intros H. apply lt_IZR. rewrite mult_IZR.
    apply (Rmult_lt_compat_r (IZR d)) in H; [|exact Hd'].
    unfold Rdiv in H. rewrite Rmult_assoc, Rinv_l, Rmult_1_r in H; lra.
  - intros H. apply IZR_lt in H. rewrite mult_IZR in H.
    apply (Rmult_lt_reg_r (IZR d)); [exact Hd'|].
    unfold Rdiv. rewrite Rmult_assoc, Rinv_l, Rmult_1_r; lra.
Qed.

Lemma Zfloor_IZR_div (n d : Z) :
  (0 < d)%Z -> Zfloor (IZR n / IZR d) = (n / d)%Z.
Proof.
  intros Hd. assert (Hd' : 0 < IZR d) by (apply IZR_lt; exact Hd).
  apply Zfloor_eq.
  pose proof (Z.div_mod n d ltac:(lia)) as E.
  pose proof (Z.mod_pos_bound n d Hd) as [M0 M1].
  assert (En : IZR n = IZR d * IZR (n / d) + IZR (n mod d)).
  { rewrite <- mult_IZR, <- plus_IZR. f_equal. exact E. }
  apply IZR_le in M0. apply IZR_lt in M1.
  split.
  - apply (Rmult_le_reg_r (IZR d)); [exact Hd'|].
    unfold Rdiv. rewrite Rmult_assoc, Rinv_l, Rmult_1_r; nra.
  - apply (Rmult_lt_reg_r (IZR d)); [exact Hd'|].
    unfold Rdiv. rewrite Rmult_assoc, Rinv_l, Rmult_1_r; nra.
Qed.

Lemma py_int_IZR_div (n d : Z) :
  (0 <= n)%Z -> (0 < d)%Z -> py_int (IZR n / IZR d) = (n / d)%Z.
Proof.
  intros Hn Hd. unfold py_int.
  destruct (Rle_dec 0 (IZR n / IZR d)) as [_|H].
  - apply Zfloor_IZR_div. exact Hd.
  - exfalso. apply H. apply Rmult_le_pos.
    + apply IZR_le. exact Hn.
    + apply Rlt_le, Rinv_0_lt_compat, IZR_lt. exact Hd.
Qed.

(** The number of candidate passwords behind an entropy of
    [n * log2 s] bits is the integer [s ^ n]. *)
Lemma Rpower_2_entropy (s n : Z) :
  (0 < s)%Z -> (0 <= n)%Z ->
  Rpower 2 (IZR n * Rlog 2 (IZR s)) = IZR (s ^ n).
Proof.
  intros Hs Hn. assert (Hs' : 0 < IZR s) by (apply IZR_lt; exact Hs).
  rewrite Rmult_comm, <- Rpower_mult.
  rewrite Rpower_Rlog; [|lra|lra|exact Hs'].
  rewrite <- (Z2Nat.id n Hn) at 1. rewrite <- INR_IZR_INZ.
  rewrite Rpower_pow; [|exact Hs'].
  rewrite pow_IZR. rewrite Z2Nat.id; [reflexivity|exact Hn].
Qed.

Lemma Rpower_2_IZR (n : Z) : (0 <= n)%Z -> Rpower 2 (IZR n) = IZR (2 ^ n).
Proof.
  intros Hn. rewrite <- (Z2Nat.id n Hn) at 1. rewrite <- INR_IZR_INZ.
  rewrite Rpower_pow; [|lra]. rewrite pow_IZR.
  rewrite Z2Nat.id; [reflexivity|exact Hn].
Qed.

Lemma Rpower_2_mono (x y : R) : x <= y -> Rpower 2 x <= Rpower 2 y.
Proof. intros H. apply Rle_Rpower; lra. Qed.

Lemma Rpower_2_pos (x : R) : 0 < Rpower 2 x.
Proof. unfold Rpower. apply exp_pos. Qed.

Local Close Scope R_scope.

(** ** [estimate_crack_time] *)

Local Open Scope R_scope.

Lemma seconds_lt_iff (n k : Z) :
  IZR n / (2 * 1e9) < IZR k <-> (n < k * 2000000000)%Z.
Proof.
  replace (2 * 1e9) with (IZR 2000000000) by lra.
  apply Rdiv_IZR_lt. lia.
Qed.

Lemma if_seconds_lt {A : Type} (n k : Z) (a b : A) :
  (if Rlt_dec (IZR n / (2 * 1e9)) (IZR k) then a else b) =
  (if (n <? k * 2000000000)%Z then a else b).
Proof.
  destruct (Rlt_dec (IZR n / (2 * 1e9)) (IZR k)) as [H|H];
    destruct (Z.ltb_spec n (k * 2000000000)) as [H'|H']; try reflexivity.
  - apply seconds_lt_iff in H. lia.
  - exfalso. apply H. apply seconds_lt_iff. exact H'.
Qed.

Lemma py_int_seconds (n : Z) :
  (0 <= n)%Z -> py_int (IZR n / (2 * 1e9)) = (n / 2000000000)%Z.
Proof.
  intros Hn. replace (2 * 1e9) with (IZR 2000000000) by lra.
  apply py_int_IZR_div; lia.
Qed.

Lemma py_int_seconds_div (n k : Z) :
  (0 <= n)%Z -> (0 < k)%Z ->
  py_int (IZR n / (2 * 1e9) / IZR k) = (n / (2000000000 * k))%Z.
Proof.
  intros Hn Hk. assert (Hk' : 0 < IZR k) by (apply IZR_lt; exact Hk).
  replace (IZR n / (2 * 1e9) / IZR k) with (IZR n / IZR (2000000000 * k)).
  - apply py_int_IZR_div; lia.
  - rewrite mult_IZR. field. lra.
Qed.

(** On an entropy whose keyspace [2 ** entropy] is the integer [n], the
    function computes the integer buckets. *)
Lemma estimate_crack_time_keyspace (e : R) (n : Z) :
  Rpower 2 e = IZR n ->
  estimate_crack_time e = crack_time_of_keyspace n.
Proof.
  intros E.
  assert (Hn : (0 <= n)%Z).
  { apply le_IZR. rewrite <- E. apply Rlt_le, Rpower_2_pos. }
  unfold estimate_crack_time, crack_time_of_keyspace, float_pow.
  rewrite E.
  destruct (Rlt_dec (IZR n) (IZR float_limit)) as [H|H];
    destruct (Z.ltb_spec n float_limit) as [H'|H'];
    try (apply lt_IZR in H; lia);
    try (exfalso; apply H; apply IZR_lt; exact H').
  2: reflexivity.
  cbn [bind].
  rewrite !if_seconds_lt.
  rewrite py_int_seconds by exact Hn.
  rewrite !py_int_seconds_div by (try exact Hn; lia).
  assert (Hy : (0 <= n / (2000000000 * 31536000))%Z)
    by (apply Z.div_pos; lia).
  replace (IZR (n / (2000000000 * 31536000)) / 1000)
    with (IZR (n / (2000000000 * 31536000)) / IZR 1000) by reflexivity.
  rewrite py_int_IZR_div by (try exact Hy; lia).
  reflexivity.
Qed.

Local Close Scope R_scope.

Lemma estimate_crack_time_zero :
  estimate_crack_time 0 = Returned "Less than a second".
Proof.
  rewrite (estimate_crack_time_keyspace 0 1).
  - reflexivity.
  - apply Rpower_O. lra.
Qed.

Lemma float_limit_IZR : Rpower 2 1024 = IZR float_limit.
Proof. apply (Rpower_2_IZR 1024). lia. Qed.

(** From 1024 bits on, [2 ** entropy] leaves the float range. *)
Lemma estimate_crack_time_overflow (e : R) :
  (1024 <= e)%R -> estimate_crack_time e = Raised OverflowError.
Proof.
  intros H. unfold estimate_crack_time, float_pow.
  destruct (Rlt_dec (Rpower 2 e) (IZR float_limit)) as [L|L]; [|reflexivity].
  exfalso. rewrite <- float_limit_IZR in L.
  apply Rpower_2_mono in H. lra.
Qed.


Lemma crack_time_of_keyspace_defined (n : Z) :
  n < float_limit -> exists s, crack_time_of_keyspace n = Returned s.
Proof.
  intros H. unfold crack_time_of_keyspace.
  destruct (Z.ltb_spec n float_limit) as [_|L]; [|lia].
  repeat match goal with
         | |- context [(?a <? ?b)%Z] => destruct (a <? b)%Z
         end; eexists; reflexivity.
Qed.

Lemma crack_time_of_keyspace_overflow (n : Z) :
  float_limit <= n -> crack_time_of_keyspace n = Raised OverflowError.
Proof.
  intros H. unfold crack_time_of_keyspace.
  destruct (Z.ltb_spec n float_limit) as [L|_]; [lia|reflexivity].
Qed.

(** ** [calculate_entropy] *)

Section EntropyFacts.
Context {U : UnicodeData}.

Lemma charset_size_bounds (p : pystr) : 0 <= charset_size p <= 194.
Proof.
  unfold charset_size.
  repeat match goal with
         | |- context [if ?b then _ else _] => destruct b
         end; lia.
Qed.

Lemma calculate_entropy_value (p : pystr) :
  calculate_entropy p =
  Returned (if charset_size p =? 0 then 0%R
            else (IZR (len p) * Rlog 2 (IZR (charset_size p)))%R).
Proof.
  unfold calculate_entropy, math_log2.
  destruct (Z.eqb_spec (charset_size p) 0) as [E|E]; [reflexivity|].
  pose proof (charset_size_bounds p) as B.
  destruct (Rlt_dec 0 (IZR (charset_size p))) as [L|L]; [reflexivity|].
  exfalso. apply L. apply IZR_lt. lia.
Qed.

Lemma keyspace_entropy (p : pystr) (e : R) :
  calculate_entropy p = Returned e -> Rpower 2 e = IZR (keyspace p).
Proof.
  rewrite calculate_entropy_value. intros E. injection E as <-.
  unfold keyspace. pose proof (charset_size_bounds p) as B.
  destruct (Z.eqb_spec (charset_size p) 0) as [Z0|NZ].
  - apply Rpower_O. lra.
  - apply Rpower_2_entropy; [lia | apply len_nonneg].
Qed.

End EntropyFacts.

(** ** [check_password_strength] *)

Section StrengthFacts.
Context {U : UnicodeData}.

Lemma raw_score_bounds (p : pystr) : -15 <= raw_score p <= 90.
Proof.
  unfold raw_score, run_checks, repeated_check, common_check, special_check,
    numbers_check, uppercase_check, lowercase_check, length_check.
  repeat match goal with
         | |- context [if ?b then _ else _] => destruct b
         end; cbn; lia.
Qed.

(** What a returned analysis holds. *)
Lemma check_password_strength_inv (p : pystr) (r : analysis) :
  check_password_strength p = Returned (Some r) ->
  p <> [] /\
  score r = py_max 0 (py_min 100 (raw_score p)) /\
  strength r = fst (fst (strength_level (raw_score p))) /\
  feedback r = t_feedback (run_checks p) /\
  criteria_map r = criteria_of p /\
  calculate_entropy p = Returned (entropy r) /\
  estimate_crack_time (entropy r) = Returned (crack_time r).
Proof.
  destruct p as [|c p]; [discriminate|].
  unfold check_password_strength.
  destruct (calculate_entropy (c :: p)) as [e|x]; [|discriminate].
  cbn [bind].
  destruct (estimate_crack_time e) as [ct|x] eqn:Ect; [|discriminate].
  cbn [bind]. fold (raw_score (c :: p)).
  destruct (strength_level (raw_score (c :: p))) as [[st co] em] eqn:Es.
  intros E. injection E as <-. cbn.
  repeat split; try reflexivity; try assumption. discriminate.
Qed.

(** The call runs the integer buckets on the keyspace of the password. *)
Lemma check_password_strength_keyspace (p : pystr) :
  p <> [] ->
  check_password_strength p =
  bind (crack_time_of_keyspace (keyspace p)) (fun ct =>
    Returned (Some
      {| score := py_max 0 (py_min 100 (raw_score p));
         strength := fst (fst (strength_level (raw_score p)));
         color := snd (fst (strength_level (raw_score p)));
         emoji := snd (strength_level (raw_score p));
         feedback := t_feedback (run_checks p);
         criteria_map := criteria_of p;
         entropy := if charset_size p =? 0 then 0%R
                    else (IZR (len p) * Rlog 2 (IZR (charset_size p)))%R;
         crack_time := ct |})).
Proof.
  destruct p as [|c p]; [congruence|]. intros _.
  unfold check_password_strength.
  pose proof (calculate_entropy_value (c :: p)) as Ev.
  rewrite Ev. cbn [bind].
  rewrite (estimate_crack_time_keyspace _ (keyspace (c :: p)))
    by (apply keyspace_entropy; exact Ev).
  destruct (crack_time_of_keyspace (keyspace (c :: p))) as [ct|x];
    [|reflexivity].
  cbn [bind]. fold (raw_score (c :: p)).
  destruct (strength_level (raw_score (c :: p))) as [[st co] em].
  reflexivity.
Qed.

Lemma keyspace_nonneg (p : pystr) : 0 <= keyspace p.
Proof.
  unfold keyspace. pose proof (charset_size_bounds p).
  destruct (charset_size p =? 0); [lia|].
  apply Z.pow_nonneg. lia.
Qed.

Lemma keyspace_small (p : pystr) : len p <= 134 -> keyspace p < float_limit.
Proof.
  intros H. unfold keyspace.
  pose proof (charset_size_bounds p) as B. pose proof (len_nonneg p) as L.
  destruct (Z.eqb_spec (charset_size p) 0) as [E|E].
  - reflexivity.
  - apply Z.le_lt_trans with (194 ^ 134); [|reflexivity].
    apply Z.le_trans with (194 ^ len p).
    + apply Z.pow_le_mono_l. lia.
    + apply Z.pow_le_mono_r; lia.
Qed.

(** Every non-empty password of at most 134 characters is analysed. *)
Lemma check_password_strength_returns (p : pystr) :
  p <> [] -> len p <= 134 ->
  exists r, check_password_strength p = Returned (Some r).
Proof.
  intros Hp Hl. rewrite check_password_strength_keyspace by exact Hp.
  destruct (crack_time_of_keyspace_defined (keyspace p)) as [ct ->].
  - apply keyspace_small. exact Hl.
  - cbn [bind]. eexists. reflexivity.
Qed.

(** A keyspace beyond the float range makes the call raise. *)
Lemma check_password_strength_raises (p : pystr) :
  p <> [] -> float_limit <= keyspace p ->
  check_password_strength p = Raised OverflowError.
Proof.
  intros Hp Hk. rewrite check_password_strength_keyspace by exact Hp.
  rewrite crack_time_of_keyspace_overflow by exact Hk. reflexivity.
Qed.

End StrengthFacts.

(** ** A worked analysis: ["P@ssw0rd123"] *)

Lemma sample_analysis_eq :
  @check_password_strength latin1_data (str "P@ssw0rd123")
  = Returned (Some sample_analysis).
Proof.
  rewrite check_password_strength_keyspace by discriminate.
  assert (Hk : crack_time_of_keyspace (@keyspace latin1_data (str "P@ssw0rd123"))
               = Returned "80k+ years") by (vm_compute; reflexivity).
  rewrite Hk. reflexivity.
Qed.

(** ** The score and the strength level *)

Section ScoreClaims.
Context {U : UnicodeData}.

(** C1. For every non-empty password, the [score] field of the analysis that
    [check_password_strength] returns is an integer between 0 and 100. *)
Theorem score_within_0_100 (p : pystr) (r : analysis) :
  p <> [] ->
  check_password_strength p = Returned (Some r) ->
  0 <= score r <= 100.
Proof.
  intros _ H. apply check_password_strength_inv in H.
  destruct H as (_ & Hs & _). rewrite Hs. unfold py_max, py_min. lia.
Qed.

(** C2. For every non-empty password, the strength level of the returned
    analysis is "Strong" exactly when the clamped score is at least 75,
    "Medium" exactly when it is in [50, 75), and "Weak" otherwise. *)
Theorem strength_follows_clamped_score (p : pystr) (r : analysis) :
  p <> [] ->
  check_password_strength p = Returned (Some r) ->
  (strength r = "Strong" <-> 75 <= score r) /\
  (strength r = "Medium" <-> 50 <= score r < 75) /\
  (strength r = "Weak" <-> score r < 50).
Proof.
  intros _ H. apply check_password_strength_inv in H.
  destruct H as (_ & Hs & Hl & _). rewrite Hs, Hl.
  unfold strength_level, py_max, py_min.
  destruct (Z.leb_spec 75 (raw_score p)) as [A|A];
    [|destruct (Z.leb_spec 50 (raw_score p)) as [B|B]];
    cbn [fst]; repeat split; intros; try discriminate; try reflexivity; lia.
Qed.

(** The "no result" signal is returned for the empty string and for nothing
    else. *)
Lemma check_password_strength_none_iff (p : pystr) :
  check_password_strength p = Returned None <-> p = [].
Proof.
  split.
  - destruct p as [|c p]; [reflexivity|]. intros H. exfalso.
    rewrite check_password_strength_keyspace in H by discriminate.
    destruct (crack_time_of_keyspace (keyspace (c :: p))); discriminate.
  - intros ->. reflexivity.
Qed.

Lemma charset_size_lowercase_a (n : nat) :
  charset_size (repeat 97 (S n)) = 26.
Proof.
  unfold charset_size. rewrite !any_repeat.
  rewrite islower_ascii, isupper_ascii, isdigit_ascii
    by (unfold is_ascii; lia).
  reflexivity.
Qed.

(** C8, at a password of 256 letters [a]: the keyspace 26^256 is beyond the
    float range, [2 ** entropy] raises [OverflowError] and no analysis is
    returned. *)
Theorem check_password_strength_256_letters_raises :
  check_password_strength (repeat 97 256) = Raised OverflowError.
Proof.
  apply check_password_strength_raises; [discriminate|].
  unfold keyspace. rewrite charset_size_lowercase_a.
  unfold len. rewrite repeat_length. vm_compute. discriminate.
Qed.

End ScoreClaims.

Lemma score_within_0_100_witness :
  @check_password_strength latin1_data (str "P@ssw0rd123")
    = Returned (Some sample_analysis)
  /\ 0 <= score sample_analysis <= 100.
Proof.
  split.
  - exact sample_analysis_eq.
  - apply (@score_within_0_100 latin1_data (str "P@ssw0rd123")).
    + discriminate.
    + exact sample_analysis_eq.
Defined.

Lemma strength_follows_clamped_score_witness :
  @check_password_strength latin1_data (str "P@ssw0rd123")
    = Returned (Some sample_analysis)
  /\ (strength sample_analysis = "Medium" <-> 50 <= score sample_analysis < 75).
Proof.
  split.
  - exact sample_analysis_eq.
  - apply (@strength_follows_clamped_score latin1_data (str "P@ssw0rd123")).
    + discriminate.
    + exact sample_analysis_eq.
Defined.

(** ** The alphabet size and the entropy *)

Section EntropyClaims.
Context {U : UnicodeData}.

Lemma charset_size_weights (p : pystr) :
  charset_size p =
  weight (any py_islower p) 26 + weight (any py_isupper p) 26
  + weight (any py_isdigit p) 10
  + weight (any (fun c => char_in c punctuation) p) 32
  + weight (any (fun c => 127 <? c) p) 100.
Proof.
  unfold charset_size, weight.
  repeat match goal with
         | |- context [if ?b then _ else _] => destruct b
         end; reflexivity.
Qed.

(** C3. [calculate_entropy] returns [len(password) * log2(S)], where [S] adds
    26 when some lowercase character is present, 26 for some uppercase
    character, 10 for some digit, 32 for some ASCII punctuation character and
    100 for some code point above 127, each at most once; when [S = 0] (the
    empty string included) it returns 0, and it never raises. *)
Theorem calculate_entropy_charset_sum (p : pystr) :
  exists lower upper digit punct extended : bool,
    (lower = true <-> exists c, In c p /\ py_islower c = true) /\
    (upper = true <-> exists c, In c p /\ py_isupper c = true) /\
    (digit = true <-> exists c, In c p /\ py_isdigit c = true) /\
    (punct = true <-> exists c, In c p /\ In c punctuation) /\
    (extended = true <-> exists c, In c p /\ 127 < c) /\
    let S := weight lower 26 + weight upper 26 + weight digit 10
             + weight punct 32 + weight extended 100 in
    calculate_entropy p =
      Returned (if S =? 0 then 0%R else (IZR (len p) * Rlog 2 (IZR S))%R) /\
    (S = 0 -> calculate_entropy p = Returned 0%R) /\
    calculate_entropy [] = Returned 0%R.
Proof.
  exists (any py_islower p), (any py_isupper p), (any py_isdigit p),
    (any (fun c => char_in c punctuation) p), (any (fun c => 127 <? c) p).
  repeat split; try (apply any_exists); try (apply any_exists; assumption).
  - intros H. apply any_exists in H. destruct H as [c [Hc Hp]].
    exists c. split; [exact Hc | apply char_in_In; exact Hp].
  - intros [c [Hc Hp]]. apply any_exists. exists c.
    split; [exact Hc | apply char_in_In; exact Hp].
  - intros H. apply any_exists in H. destruct H as [c [Hc Hp]].
    exists c. split; [exact Hc | apply Z.ltb_lt; exact Hp].
  - intros [c [Hc Hp]]. apply any_exists. exists c.
    split; [exact Hc | apply Z.ltb_lt; exact Hp].
  - rewrite <- charset_size_weights. apply calculate_entropy_value.
  - rewrite <- charset_size_weights. intros E.
    rewrite calculate_entropy_value, E. reflexivity.
Qed.

Lemma any_of_member {A : Type} (f : A -> bool) (x : A) (xs : list A) :
  In x xs -> f x = true -> any f xs = true.
Proof. intros Hx Hf. apply any_exists. exists x. split; assumption. Qed.

(** C10. The class tests read the Unicode tables, so one character can feed
    two classes of the alphabet size: a lowercase letter above U+007F counts
    for the 26 of lowercase and for the 100 of non-ASCII (alone it gives an
    entropy of log2(126)), and a digit above U+007F counts for the digit
    class. *)
Theorem non_ascii_character_counts_twice (c : codepoint) :
  127 < c ->
  (py_islower c = true ->
     (forall p, In c p -> any py_islower p = true /\ 126 <= charset_size p) /\
     (py_isupper c = false -> py_isdigit c = false ->
        charset_size [c] = 126 /\
        calculate_entropy [c] = Returned (Rlog 2 126))) /\
  (py_isdigit c = true ->
     forall p, In c p -> has_digit p = true /\ 110 <= charset_size p).
Proof.
  intros Hc.
  assert (Hx : forall p, In c p -> any (fun c => 127 <? c) p = true).
  { intros p Hp. apply (any_of_member _ c); [exact Hp | apply Z.ltb_lt; exact Hc]. }
  assert (Hn : char_in c punctuation = false).
  { destruct (char_in c punctuation) eqn:E; [|reflexivity].
    apply char_in_In in E. simpl in E.
    repeat (destruct E as [E|E]; [lia|]). destruct E. }
  split.
  - intros Hl. split.
    + intros p Hp. pose proof (any_of_member py_islower c p Hp Hl) as Al.
      split; [exact Al|].
      rewrite charset_size_weights, Al, (Hx p Hp). unfold weight.
      repeat match goal with
             | |- context [if ?b then _ else _] => destruct b
             end; lia.
    + intros Hu Hd.
      assert (E : charset_size [c] = 126).
      { unfold charset_size, any. cbn [existsb]. rewrite !orb_false_r.
        rewrite Hl, Hu, Hd, Hn. destruct (Z.ltb_spec 127 c); [reflexivity|lia]. }
      split; [exact E|].
      rewrite calculate_entropy_value, E. simpl (126 =? 0).
      f_equal. replace (IZR (len [c])) with 1%R by reflexivity.
      apply Rmult_1_l.
  - intros Hd p Hp. pose proof (any_of_member py_isdigit c p Hp Hd) as Ad.
    split; [exact Ad|].
    rewrite charset_size_weights, Ad, (Hx p Hp). unfold weight.
    repeat match goal with
           | |- context [if ?b then _ else _] => destruct b
           end; lia.
Qed.

End EntropyClaims.

(** U+00E9 (e with acute accent) and U+00B2 (superscript two). *)
Lemma non_ascii_character_counts_twice_witness :
  (@py_islower latin1_data 233 = true /\
   @charset_size latin1_data [233] = 126 /\
   @calculate_entropy latin1_data [233] = Returned (Rlog 2 126)) /\
  (@py_isdigit latin1_data 178 = true /\
   @has_digit latin1_data [178] = true /\
   110 <= @charset_size latin1_data [178]).
Proof.
  split.
  - destruct (@non_ascii_character_counts_twice latin1_data 233 ltac:(lia))
      as [Hl _].
    destruct (Hl eq_refl) as [_ Hs].
    destruct (Hs eq_refl eq_refl) as [H1 H2].
    split; [reflexivity | split; [exact H1 | exact H2]].
  - destruct (@non_ascii_character_counts_twice latin1_data 178 ltac:(lia))
      as [_ Hd].
    destruct (Hd eq_refl [178] (or_introl eq_refl)) as [H1 H2].
    split; [reflexivity | split; [exact H1 | exact H2]].
Defined.

(** ** The crack-time table *)

Local Open Scope R_scope.

Lemma py_int_nonneg (x : R) : 0 <= x -> py_int x = Zfloor x.
Proof.
  intros H. unfold py_int. destruct (Rle_dec 0 x); [reflexivity|contradiction].
Qed.

Ltac split_buckets :=
  repeat match goal with
         | |- context [Rlt_dec ?a ?b] => destruct (Rlt_dec a b); try lra
         end.

(** Below 1024 bits the result follows the table of thresholds, every
    number rounded down. *)
Lemma estimate_crack_time_table (e : R) :
  e < 1024 ->
  let seconds := Rpower 2 e / (2 * 1e9) in
  (seconds < 1 ->
     estimate_crack_time e = Returned "Less than a second") /\
  (1 <= seconds < 60 ->
     estimate_crack_time e
     = Returned (format_int (Zfloor seconds) ++ " seconds")%string) /\
  (60 <= seconds < 3600 ->
     estimate_crack_time e
     = Returned (format_int (Zfloor (seconds / 60)) ++ " minutes")%string) /\
  (3600 <= seconds < 86400 ->
     estimate_crack_time e
     = Returned (format_int (Zfloor (seconds / 3600)) ++ " hours")%string) /\
  (86400 <= seconds < 2592000 ->
     estimate_crack_time e
     = Returned (format_int (Zfloor (seconds / 86400)) ++ " days")%string) /\
  (2592000 <= seconds < 31536000 ->
     estimate_crack_time e
     = Returned (format_int (Zfloor (seconds / 2592000)) ++ " months")%string) /\
  (31536000 <= seconds ->
     let years := Zfloor (seconds / 31536000) in
     estimate_crack_time e
     = Returned (if (1000000 <? years)%Z then "Millions of years"
                 else if (1000 <? years)%Z
                      then (format_int (years / 1000) ++ "k+ years")%string
                      else (format_int years ++ " years")%string)).
Proof.
  intros He seconds.
  assert (L : Rpower 2 e < IZR float_limit).
  { rewrite <- float_limit_IZR. apply Rpower_lt; lra. }
  unfold estimate_crack_time, float_pow.
  destruct (Rlt_dec (Rpower 2 e) (IZR float_limit)) as [_|N]; [|contradiction].
  cbn [bind]. fold seconds.
  repeat split; intros H; split_buckets;
    try reflexivity; try (rewrite py_int_nonneg by lra; reflexivity).
  rewrite (py_int_nonneg (seconds / 31536000)) by lra.
  set (years := Zfloor (seconds / 31536000)).
  assert (Hy : (0 <= years)%Z).
  { apply (Zfloor_lub 0). lra. }
  destruct (1000000 <? years)%Z; [reflexivity|].
  destruct (1000 <? years)%Z; [|reflexivity].
  replace (IZR years / 1000) with (IZR years / IZR 1000) by reflexivity.
  rewrite py_int_IZR_div by lia. reflexivity.
Qed.

(** C5, at an entropy of 1024 bits and at the entropy [256 * log2(26)] of a
    password of 256 lowercase letters: [2 ** entropy] raises [OverflowError],
    so no string is returned. *)
Theorem estimate_crack_time_1024_raises :
  estimate_crack_time 1024 = Raised OverflowError /\
  estimate_crack_time (256 * Rlog 2 26) = Raised OverflowError.
Proof.
  split.
  - apply estimate_crack_time_overflow. lra.
  - rewrite (estimate_crack_time_keyspace _ (26 ^ 256)).
    + apply crack_time_of_keyspace_overflow. vm_compute. discriminate.
    + apply (Rpower_2_entropy 26 256); lia.
Qed.

Local Close Scope R_scope.

(** ** [generate_password] *)

Lemma ascii_lowercase_members (c : codepoint) :
  In c ascii_lowercase -> 97 <= c <= 122.
Proof.
  intros H. cbv in H. repeat (destruct H as [H|H]; [lia|]). destruct H.
Qed.

Lemma ascii_uppercase_members (c : codepoint) :
  In c ascii_uppercase -> 65 <= c <= 90.
Proof.
  intros H. cbv in H. repeat (destruct H as [H|H]; [lia|]). destruct H.
Qed.

Lemma digits_members (c : codepoint) : In c digits -> 48 <= c <= 57.
Proof.
  intros H. cbv in H. repeat (destruct H as [H|H]; [lia|]). destruct H.
Qed.

Lemma build_charset_members (up lo di sp : bool) (c : codepoint) :
  In c (build_charset up lo di sp) -> allowed up lo di sp c.
Proof.
  unfold build_charset, allowed. intros H.
  destruct sp; [apply in_app_or in H; destruct H as [H|H]; [|tauto]|];
    (destruct di; [apply in_app_or in H; destruct H as [H|H];
                   [|apply digits_members in H; tauto]|]);
    (destruct up; [apply in_app_or in H; destruct H as [H|H];
                   [|apply ascii_uppercase_members in H; tauto]|]);
    (destruct lo; [apply in_app_or in H; destruct H as [H|H];
                   [destruct H|apply ascii_lowercase_members in H; tauto]
                  |destruct H]).
Qed.

Lemma build_charset_empty (up lo di sp : bool) :
  build_charset up lo di sp = [] <->
  up = false /\ lo = false /\ di = false /\ sp = false.
Proof.
  split.
  - destruct up, lo, di, sp; intros H; try discriminate H; repeat split.
  - intros (-> & -> & -> & ->). reflexivity.
Qed.

Section GeneratorClaims.
Context {G : SecureRandom}.

Lemma secrets_choice_member (charset : pystr) (k : nat) :
  charset <> [] ->
  exists c, secrets_choice charset k = Returned c /\ In c charset.
Proof.
  intros Hne. unfold secrets_choice.
  assert (Hl : (0 < List.length charset)%nat).
  { destruct charset; [congruence | simpl; lia]. }
  pose proof (randbelow_lt k _ Hl) as Hr.
  destruct (nth_error charset (randbelow k (List.length charset))) as [c|] eqn:E.
  - exists c. split; [reflexivity | eapply nth_error_In; exact E].
  - apply nth_error_None in E. lia.
Qed.

Lemma join_choices_members (charset : pystr) (n : nat) :
  charset <> [] ->
  forall k, exists s,
    join_choices charset k n = Returned s /\
    List.length s = n /\ Forall (fun c => In c charset) s.
Proof.
  intros Hne. induction n as [|n IH]; intros k.
  - exists []. repeat split. constructor.
  - destruct (secrets_choice_member charset k Hne) as [c [Hc Hin]].
    destruct (IH (S k)) as [s [Hs [Hl Hf]]].
    exists (c :: s). cbn [join_choices]. rewrite Hc. cbn [bind].
    rewrite Hs. cbn [bind]. repeat split.
    + simpl. rewrite Hl. reflexivity.
    + constructor; assumption.
Qed.

(** C6. When the requested length [n] is not negative and at least one class
    flag is set, [generate_password] returns a string of exactly [n]
    characters, each from the symbol set of a selected class (a-z, A-Z, 0-9,
    the punctuation set). *)
Theorem generate_password_length_and_alphabet
    (n : Z) (use_upper use_lower use_digits use_special : bool) :
  0 <= n ->
  use_upper || use_lower || use_digits || use_special = true ->
  exists s,
    generate_password n use_upper use_lower use_digits use_special
      = Returned (Some s) /\
    len s = n /\
    Forall (allowed use_upper use_lower use_digits use_special) s.
Proof.
  intros Hn Hf. unfold generate_password.
  destruct (build_charset use_upper use_lower use_digits use_special)
    as [|c0 cs] eqn:E.
  - apply build_charset_empty in E. destruct E as (-> & -> & -> & ->).
    discriminate Hf.
  - destruct (join_choices_members (c0 :: cs) (Z.to_nat n) ltac:(discriminate) 0%nat)
      as [s [Hs [Hl Hall]]].
    exists s. rewrite Hs. cbn [bind]. repeat split.
    + unfold len. rewrite Hl. apply Z2Nat.id. exact Hn.
    + rewrite Forall_forall in Hall |- *. intros c Hc.
      apply build_charset_members. rewrite E. apply Hall. exact Hc.
Qed.

(** C7. [generate_password] returns [None] exactly when the four class flags
    are all false, whatever the requested length; with a flag set it returns
    a string. *)
Theorem generate_password_none_iff_no_class
    (n : Z) (use_upper use_lower use_digits use_special : bool) :
  (generate_password n use_upper use_lower use_digits use_special
     = Returned None
   <-> use_upper = false /\ use_lower = false /\
       use_digits = false /\ use_special = false) /\
  (use_upper || use_lower || use_digits || use_special = true <->
   exists s,
     generate_password n use_upper use_lower use_digits use_special
       = Returned (Some s)).
Proof.
  unfold generate_password.
  destruct (build_charset use_upper use_lower use_digits use_special)
    as [|c0 cs] eqn:E.
  - apply build_charset_empty in E. destruct E as (-> & -> & -> & ->).
    split; split; try reflexivity; try (repeat split; reflexivity).
    + discriminate.
    + intros [s Hs]. discriminate Hs.
  - destruct (join_choices_members (c0 :: cs) (Z.to_nat n) ltac:(discriminate) 0%nat)
      as [s [Hs _]].
    rewrite Hs. cbn [bind].
    assert (Hne : ~ (use_upper = false /\ use_lower = false /\
                     use_digits = false /\ use_special = false)).
    { intros H. apply build_charset_empty in H. rewrite H in E. discriminate E. }
    split; split.
    + discriminate.
    + intros H. contradiction.
    + intros _. exists s. reflexivity.
    + intros _. destruct use_upper, use_lower, use_digits, use_special;
        try reflexivity. exfalso. apply Hne. repeat split.
Qed.

End GeneratorClaims.

Lemma generate_password_length_and_alphabet_witness :
  exists s,
    @generate_password counting_source 16 true true true true
      = Returned (Some s) /\
    len s = 16 /\ Forall (allowed true true true true) s.
Proof.
  apply (@generate_password_length_and_alphabet counting_source 16
           true true true true).
  - lia.
  - reflexivity.
Defined.

(** ** [check_common_breach] *)

Lemma Forall_is_ascii (s : pystr) :
  forallb (fun c => (0 <=? c) && (c <? 128)) s = true -> Forall is_ascii s.
Proof.
  intros H. rewrite forallb_forall in H. apply Forall_forall. intros c Hc.
  specialize (H c Hc). apply andb_true_iff in H. destruct H as [H0 H1].
  apply Z.leb_le in H0. apply Z.ltb_lt in H1. split; assumption.
Qed.

Section BreachClaims.
Context {U : UnicodeData}.

Lemma check_common_breach_In (p : pystr) :
  check_common_breach p = true <-> In (py_lower p) common_breached.
Proof.
  unfold check_common_breach. rewrite existsb_exists. split.
  - intros [x [Hx E]]. apply str_eqb_eq in E. subst. exact Hx.
  - intros H. exists (py_lower p). split; [exact H | apply str_eqb_eq; reflexivity].
Qed.

Lemma check_common_breach_ascii (p : pystr) :
  Forall is_ascii p ->
  check_common_breach p
  = existsb (str_eqb (map ascii_lower p)) common_breached.
Proof. intros H. unfold check_common_breach. rewrite lower_ascii by exact H. reflexivity. Qed.

(** C9. [check_common_breach] returns true exactly when the lower-cased
    password equals one of the 25 entries of the list; it is true for
    "Password" and "PASSWORD" and false for "Xk9#mQ2!vL". *)
Theorem check_common_breach_exact_match (p : pystr) :
  (check_common_breach p = true <-> In (py_lower p) common_breached) /\
  List.length common_breached = 25%nat /\
  check_common_breach (str "Password") = true /\
  check_common_breach (str "PASSWORD") = true /\
  check_common_breach (str "Xk9#mQ2!vL") = false.
Proof.
  split; [apply check_common_breach_In|].
  split; [reflexivity|].
  repeat split; rewrite check_common_breach_ascii
    by (apply Forall_is_ascii; reflexivity); reflexivity.
Qed.

End BreachClaims.

(** ** Appending characters *)

Section AppendClaims.
Context {U : UnicodeData}.

Lemma raw_score_sum (p : pystr) :
  raw_score p =
  length_points (len p)
  + weight (has_lower p) 10 + weight (has_upper p) 10
  + weight (has_digit p) 10 + weight (has_special p) 15
  + (if has_common p then -10 else 10)
  + (if has_repeated_run p then -5 else 10).
Proof.
  unfold raw_score, run_checks, repeated_check, common_check, special_check,
    numbers_check, uppercase_check, lowercase_check, length_check,
    length_points, weight.
  repeat match goal with
         | |- context [if ?b then _ else _] => destruct b
         end; reflexivity.
Qed.

Lemma length_points_mono (a b : Z) :
  a <= b -> length_points a <= length_points b.
Proof.
  intros H. unfold length_points.
  repeat match goal with
         | |- context [(?x <=? ?y)] => destruct (Z.leb_spec x y)
         end; lia.
Qed.

Lemma weight_mono (a b : bool) (w : Z) :
  0 <= w -> (a = true -> b = true) -> weight a w <= weight b w.
Proof.
  intros Hw H. unfold weight.
  destruct a, b; try lia; specialize (H eq_refl); discriminate H.
Qed.

(** Appending cannot lower the part of the score that comes from the length
    and from the four scored classes. *)
Lemma raw_score_append (p s : pystr) :
  (has_common (p ++ s) = true -> has_common p = true) ->
  (has_repeated_run (p ++ s) = true -> has_repeated_run p = true) ->
  raw_score p <= raw_score (p ++ s).
Proof.
  intros Hc Hr. rewrite !raw_score_sum.
  pose proof (length_points_mono (len p) (len (p ++ s))) as Hl.
  rewrite len_app in Hl. pose proof (len_nonneg s) as Hs.
  specialize (Hl ltac:(lia)). rewrite <- len_app in Hl.
  pose proof (weight_mono (has_lower p) (has_lower (p ++ s)) 10
                ltac:(lia) (any_app_mono _ p s)) as H1.
  pose proof (weight_mono (has_upper p) (has_upper (p ++ s)) 10
                ltac:(lia) (any_app_mono _ p s)) as H2.
  pose proof (weight_mono (has_digit p) (has_digit (p ++ s)) 10
                ltac:(lia) (any_app_mono _ p s)) as H3.
  pose proof (weight_mono (has_special p) (has_special (p ++ s)) 15
                ltac:(lia) (any_app_mono _ p s)) as H4.
  assert (H5 : (if has_common p then -10 else 10)
               <= (if has_common (p ++ s) then -10 else 10)).
  { destruct (has_common (p ++ s)); destruct (has_common p); try lia;
      specialize (Hc eq_refl); discriminate Hc. }
  assert (H6 : (if has_repeated_run p then -5 else 10)
               <= (if has_repeated_run (p ++ s) then -5 else 10)).
  { destruct (has_repeated_run (p ++ s)); destruct (has_repeated_run p);
      try lia; specialize (Hr eq_refl); discriminate Hr. }
  lia.
Qed.

(** C4, amended.  Appending characters to a password (characters of a class
    that was absent among them) does not lower the score, provided the
    common-pattern check and the repeated-run check do not newly fire on the
    longer password. *)
Theorem appending_keeps_score (p s : pystr) (r r' : analysis) :
  check_password_strength p = Returned (Some r) ->
  check_password_strength (p ++ s) = Returned (Some r') ->
  (has_common (p ++ s) = true -> has_common p = true) ->
  (has_repeated_run (p ++ s) = true -> has_repeated_run p = true) ->
  score r <= score r'.
Proof.
  intros H H' Hc Hr.
  apply check_password_strength_inv in H. destruct H as (_ & -> & _).
  apply check_password_strength_inv in H'. destruct H' as (_ & -> & _).
  pose proof (raw_score_append p s Hc Hr). unfold py_max, py_min. lia.
Qed.

End AppendClaims.

(** ["AB"] has no lowercase letter; appending the lowercase letter [c] makes
    the lower-cased password contain "abc", and the score falls from 30 to
    20. *)
Lemma appending_new_class_lowers_score :
  exists r r',
    @has_lower latin1_data (str "AB") = false /\
    @py_islower latin1_data 99 = true /\
    @check_password_strength latin1_data (str "AB") = Returned (Some r) /\
    @check_password_strength latin1_data (str "AB" ++ [99])
      = Returned (Some r') /\
    score r = 30 /\ score r' = 20 /\ score r' < score r.
Proof.
  destruct (@check_password_strength_returns latin1_data (str "AB"))
    as [r Hr]; [discriminate | vm_compute; discriminate |].
  destruct (@check_password_strength_returns latin1_data (str "AB" ++ [99]))
    as [r' Hr']; [discriminate | vm_compute; discriminate |].
  exists r, r'.
  pose proof (check_password_strength_inv _ _ Hr) as (_ & Hs & _).
  pose proof (check_password_strength_inv _ _ Hr') as (_ & Hs' & _).
  assert (E : score r = 30) by (rewrite Hs; reflexivity).
  assert (E' : score r' = 20) by (rewrite Hs'; reflexivity).
  repeat split; try assumption; try reflexivity. lia.
Qed.

Lemma appending_keeps_score_witness :
  exists r r',
    @check_password_strength latin1_data (str "hello") = Returned (Some r) /\
    @check_password_strength latin1_data (str "hello" ++ str "7")
      = Returned (Some r') /\
    score r <= score r'.
Proof.
  destruct (@check_password_strength_returns latin1_data (str "hello"))
    as [r Hr]; [discriminate | vm_compute; discriminate |].
  destruct (@check_password_strength_returns latin1_data (str "hello" ++ str "7"))
    as [r' Hr']; [discriminate | vm_compute; discriminate |].
  exists r, r'. split; [exact Hr|]. split; [exact Hr'|].
  apply (@appending_keeps_score latin1_data (str "hello") (str "7") r r' Hr Hr').
  - intros H. vm_compute in H. discriminate H.
  - intros H. vm_compute in H. discriminate H.
Defined.

(** * Further properties *)

(** ** What the score can be *)

Ltac case_checks :=
  repeat match goal with
         | |- context [has_lower ?p] => destruct (has_lower p)
         | |- context [has_upper ?p] => destruct (has_upper p)
         | |- context [has_digit ?p] => destruct (has_digit p)
         | |- context [has_special ?p] => destruct (has_special p)
         | |- context [has_common ?p] => destruct (has_common p)
         | |- context [has_repeated_run ?p] => destruct (has_repeated_run p)
         end.

Section ScoreRange.
Context {U : UnicodeData}.

Lemma length_points_cases (n : Z) :
  (n < 8 /\ length_points n = 0) \/
  (8 <= n < 12 /\ length_points n = 15) \/
  (12 <= n /\ length_points n = 25).
Proof.
  unfold length_points.
  destruct (Z.leb_spec 12 n); [right; right; lia|].
  destruct (Z.leb_spec 8 n); [right; left; lia | left; lia].
Qed.


(** A password rated "Strong" has at least 8 characters, contains none of
    the common patterns and shows at least three of the four scored
    classes. *)
Theorem strong_requirements (p : pystr) (r : analysis) :
  check_password_strength p = Returned (Some r) ->
  strength r = "Strong" ->
  8 <= len p /\ has_common p = false /\ 3 <= classes_present p.
Proof.
  intros H Hs. apply check_password_strength_inv in H.
  destruct H as (_ & _ & Hl & _). rewrite Hl in Hs. clear Hl.
  unfold strength_level in Hs. revert Hs. rewrite raw_score_sum.
  unfold classes_present, weight.
  destruct (length_points_cases (len p)) as [[L ->]|[[L ->]|[L ->]]];
    case_checks; cbn; intros Hs; try discriminate Hs;
    repeat split; try reflexivity; lia.
Qed.

(** A password that meets the five criteria, contains no common pattern and
    no run of three is rated "Strong", with 90 points from 12 characters on
    and 80 below. *)
Theorem all_criteria_met_is_strong (p : pystr) (r : analysis) :
  check_password_strength p = Returned (Some r) ->
  unmet (criteria_map r) = 0%nat ->
  has_common p = false ->
  has_repeated_run p = false ->
  strength r = "Strong" /\ score r = if 12 <=? len p then 90 else 80.
Proof.
  intros H Hu Hc Hr. apply check_password_strength_inv in H.
  destruct H as (_ & -> & -> & _ & Hm & _). rewrite Hm in Hu. clear Hm.
  unfold unmet, criteria_of in Hu. cbn in Hu.
  rewrite raw_score_sum, Hc, Hr. unfold length_points, weight, py_max, py_min.
  destruct (Z.leb_spec 8 (len p)) as [L8|L8]; [|discriminate Hu].
  destruct (has_lower p); [|discriminate Hu].
  destruct (has_upper p); [|discriminate Hu].
  destruct (has_digit p); [|discriminate Hu].
  destruct (has_special p); [|discriminate Hu].
  destruct (Z.leb_spec 12 (len p)); split; reflexivity.
Qed.

End ScoreRange.


Lemma strong_password_analysis :
  exists r,
    @check_password_strength latin1_data (str "Xk9#mQ2!vL") = Returned (Some r) /\
    strength r = "Strong" /\ score r = 80 /\
    unmet (criteria_map r) = 0%nat.
Proof.
  destruct (@check_password_strength_returns latin1_data (str "Xk9#mQ2!vL"))
    as [r Hr]; [discriminate | vm_compute; discriminate |].
  exists r. split; [exact Hr|].
  pose proof (check_password_strength_inv _ _ Hr) as (_ & Hs & Hl & _ & Hm & _).
  rewrite Hs, Hl, Hm. repeat split.
Qed.

Lemma strong_requirements_witness :
  exists r,
    @check_password_strength latin1_data (str "Xk9#mQ2!vL") = Returned (Some r) /\
    strength r = "Strong" /\
    8 <= len (str "Xk9#mQ2!vL") /\
    @has_common latin1_data (str "Xk9#mQ2!vL") = false /\
    3 <= @classes_present latin1_data (str "Xk9#mQ2!vL").
Proof.
  destruct strong_password_analysis as (r & Hr & Hs & _).
  exists r. split; [exact Hr|]. split; [exact Hs|].
  apply (@strong_requirements latin1_data (str "Xk9#mQ2!vL") r Hr Hs).
Defined.

Lemma all_criteria_met_is_strong_witness :
  exists r,
    @check_password_strength latin1_data (str "Xk9#mQ2!vL") = Returned (Some r) /\
    strength r = "Strong" /\ score r = 80.
Proof.
  destruct strong_password_analysis as (r & Hr & _ & _ & Hu).
  exists r. split; [exact Hr|].
  apply (@all_criteria_met_is_strong latin1_data (str "Xk9#mQ2!vL") r Hr Hu);
    reflexivity.
Defined.

(** ** The feedback lines on the page *)

Section FeedbackWidgets.
Context {U : UnicodeData}.

(** Every analysis carries seven feedback lines.  On the page the lines shown
    as errors are as many as the unmet criteria, the lines shown as warnings
    are as many as the penalties (common pattern, repeated run), and all
    other lines are shown as successes. *)
Theorem feedback_widgets_match_criteria (p : pystr) (r : analysis) :
  check_password_strength p = Returned (Some r) ->
  let ws := show_feedback (feedback r) in
  List.length ws = 7%nat /\
  List.length (filter is_error ws) = unmet (criteria_map r) /\
  List.length (filter is_warning ws)
    = ((if has_common p then 1 else 0)
       + (if has_repeated_run p then 1 else 0))%nat /\
  (List.length (filter is_success ws)
   + List.length (filter is_error ws)
   + List.length (filter is_warning ws) = 7)%nat.
Proof.
  intros H. apply check_password_strength_inv in H.
  destruct H as (_ & _ & _ & -> & -> & _).
  unfold run_checks, repeated_check, common_check, special_check,
    numbers_check, uppercase_check, lowercase_check, length_check,
    criteria_of, unmet.
  cbn [crit_length crit_lowercase crit_uppercase crit_numbers crit_special].
  destruct (Z.leb_spec 12 (len p)) as [L12|L12];
    destruct (Z.leb_spec 8 (len p)) as [L8|L8]; try lia;
    generalize (has_lower p), (has_upper p), (has_digit p), (has_special p),
      (has_common p), (has_repeated_run p);
    clear; intros [] [] [] [] [] []; vm_compute; repeat split.
Qed.

End FeedbackWidgets.

Lemma feedback_widgets_match_criteria_witness :
  @check_password_strength latin1_data (str "P@ssw0rd123")
    = Returned (Some sample_analysis) /\
  List.length (show_feedback (feedback sample_analysis)) = 7%nat /\
  List.length (filter is_error (show_feedback (feedback sample_analysis)))
    = 0%nat /\
  List.length (filter is_warning (show_feedback (feedback sample_analysis)))
    = 1%nat.
Proof.
  split; [exact sample_analysis_eq|].
  destruct (@feedback_widgets_match_criteria latin1_data (str "P@ssw0rd123")
              sample_analysis sample_analysis_eq) as (H7 & He & Hw & _).
  split; [exact H7|]. split; [exact He | exact Hw].
Defined.

(** ** Bounds on the entropy *)

Local Open Scope R_scope.

Lemma ln_le_mono (x y : R) : 0 < x -> x <= y -> ln x <= ln y.
Proof.
  intros Hx [H|H].
  - left. apply ln_increasing; assumption.
  - right. rewrite H. reflexivity.
Qed.

Lemma ln_2_pos : 0 < ln 2.
Proof. pose proof ln_lt_2. lra. Qed.

Lemma Rlog2_mono (x y : R) : 0 < x -> x <= y -> Rlog 2 x <= Rlog 2 y.
Proof.
  intros Hx Hxy. unfold Rlog, Rdiv.
  apply Rmult_le_compat_r.
  - apply Rlt_le, Rinv_0_lt_compat, ln_2_pos.
  - apply ln_le_mono; assumption.
Qed.

Lemma Rlog2_pow2 (n : nat) : Rlog 2 (2 ^ n) = INR n.
Proof. apply Rlog_pow; lra. Qed.

Lemma Rlog2_8 : Rlog 2 8 = 3.
Proof. replace 8 with (2 ^ 3) by lra. rewrite Rlog2_pow2. simpl. lra. Qed.

Lemma Rlog2_256 : Rlog 2 256 = 8.
Proof. replace 256 with (2 ^ 8) by lra. rewrite Rlog2_pow2. simpl. lra. Qed.

Local Close Scope R_scope.

Section EntropyBounds.
Context {U : UnicodeData}.

Lemma charset_size_positive (p : pystr) :
  charset_size p <> 0 -> 10 <= charset_size p.
Proof.
  rewrite charset_size_weights. unfold weight.
  repeat match goal with
         | |- context [if ?b then _ else _] => destruct b
         end; lia.
Qed.

Lemma charset_size_append (p s : pystr) :
  charset_size p <= charset_size (p ++ s).
Proof.
  rewrite !charset_size_weights.
  pose proof (weight_mono _ _ 26 ltac:(lia) (any_app_mono py_islower p s)).
  pose proof (weight_mono _ _ 26 ltac:(lia) (any_app_mono py_isupper p s)).
  pose proof (weight_mono _ _ 10 ltac:(lia) (any_app_mono py_isdigit p s)).
  pose proof (weight_mono _ _ 32 ltac:(lia)
                (any_app_mono (fun c => char_in c punctuation) p s)).
  pose proof (weight_mono _ _ 100 ltac:(lia)
                (any_app_mono (fun c => 127 <? c) p s)).
  repeat apply Z.add_le_mono; assumption.
Qed.

Lemma Rlog2_charset_size (p : pystr) :
  charset_size p <> 0 ->
  (3 <= Rlog 2 (IZR (charset_size p)) <= 8)%R.
Proof.
  intros H. pose proof (charset_size_positive p H) as Lo.
  pose proof (charset_size_bounds p) as [_ Hi].
  apply IZR_le in Lo. apply IZR_le in Hi.
  split.
  - rewrite <- Rlog2_8. apply Rlog2_mono; lra.
  - rewrite <- Rlog2_256. apply Rlog2_mono; lra.
Qed.

Lemma calculate_entropy_nonneg (p : pystr) (e : R) :
  calculate_entropy p = Returned e -> (0 <= e)%R.
Proof.
  rewrite calculate_entropy_value. intros E. injection E as <-.
  pose proof (len_nonneg p) as Hl. apply IZR_le in Hl.
  destruct (Z.eqb_spec (charset_size p) 0) as [Z0|NZ]; [lra|].
  pose proof (Rlog2_charset_size p NZ) as [L3 _]. nra.
Qed.

(** The entropy is never negative and counts between 3 and 8 bits for each
    character, as soon as one class of the alphabet is present. *)
Theorem entropy_bits_per_character (p : pystr) (e : R) :
  calculate_entropy p = Returned e ->
  (0 <= e <= 8 * IZR (len p))%R /\
  (charset_size p <> 0 -> (3 * IZR (len p) <= e)%R).
Proof.
  rewrite calculate_entropy_value. intros E. injection E as <-.
  pose proof (len_nonneg p) as Hl. apply IZR_le in Hl.
  destruct (Z.eqb_spec (charset_size p) 0) as [Z0|NZ].
  - split; [lra | contradiction].
  - pose proof (Rlog2_charset_size p NZ) as [L3 L8].
    split; [|intros _]; nra.
Qed.

(** Appending characters never lowers the entropy. *)
Theorem entropy_grows_when_appending (p s : pystr) (e e' : R) :
  calculate_entropy p = Returned e ->
  calculate_entropy (p ++ s) = Returned e' ->
  (e <= e')%R.
Proof.
  intros H H'.
  pose proof (calculate_entropy_nonneg _ _ H') as P'.
  rewrite calculate_entropy_value in H, H'.
  injection H as <-. injection H' as <-.
  destruct (Z.eqb_spec (charset_size p) 0) as [Z0|NZ]; [exact P'|].
  pose proof (charset_size_positive p NZ) as Lo.
  pose proof (charset_size_append p s) as Ha.
  destruct (Z.eqb_spec (charset_size (p ++ s)) 0) as [Z1|NZ1]; [lia|].
  pose proof (Rlog2_charset_size p NZ) as [L3 _].
  assert (Hm : (Rlog 2 (IZR (charset_size p))
                <= Rlog 2 (IZR (charset_size (p ++ s))))%R).
  { apply Rlog2_mono; [apply IZR_lt; lia | apply IZR_le; exact Ha]. }
  rewrite len_app, plus_IZR.
  pose proof (len_nonneg p) as Hp. apply IZR_le in Hp.
  pose proof (len_nonneg s) as Hs. apply IZR_le in Hs.
  nra.
Qed.

End EntropyBounds.

Lemma entropy_bits_per_character_witness :
  @calculate_entropy latin1_data (str "P@ssw0rd123")
    = Returned (11 * Rlog 2 94)%R /\
  (3 * 11 <= 11 * Rlog 2 94 <= 8 * 11)%R.
Proof.
  assert (E : @calculate_entropy latin1_data (str "P@ssw0rd123")
              = Returned (11 * Rlog 2 94)%R).
  { rewrite calculate_entropy_value. reflexivity. }
  split; [exact E|].
  destruct (@entropy_bits_per_character latin1_data _ _ E) as [[_ Hi] Lo].
  split; [apply Lo; vm_compute; discriminate | exact Hi].
Defined.

Lemma entropy_grows_when_appending_witness :
  @calculate_entropy latin1_data (str "abc") = Returned (3 * Rlog 2 26)%R /\
  @calculate_entropy latin1_data (str "abc" ++ str "1")
    = Returned (4 * Rlog 2 36)%R /\
  (3 * Rlog 2 26 <= 4 * Rlog 2 36)%R.
Proof.
  assert (E : @calculate_entropy latin1_data (str "abc")
              = Returned (3 * Rlog 2 26)%R).
  { rewrite calculate_entropy_value. reflexivity. }
  assert (E' : @calculate_entropy latin1_data (str "abc" ++ str "1")
               = Returned (4 * Rlog 2 36)%R).
  { rewrite calculate_entropy_value. reflexivity. }
  split; [exact E|]. split; [exact E'|].
  apply (@entropy_grows_when_appending latin1_data _ _ _ _ E E').
Defined.

(** ** When the crack time is defined, and its two ends *)

Local Open Scope R_scope.


(** Up to 30 bits of entropy the answer is "Less than a second". *)
Theorem crack_time_below_30_bits (e : R) :
  e <= 30 -> estimate_crack_time e = Returned "Less than a second".
Proof.
  intros H.
  destruct (estimate_crack_time_table e ltac:(lra)) as [T _].
  apply T. apply Rpower_2_mono in H.
  rewrite (Rpower_2_IZR 30) in H by lia.
  change (2 ^ 30)%Z with 1073741824%Z in H.
  apply (Rmult_lt_reg_r (2 * 1e9)); [lra|].
  unfold Rdiv. rewrite Rmult_assoc, Rinv_l by lra. lra.
Qed.

(** From 76 bits of entropy up to the overflow at 1024 bits the answer is
    "Millions of years". *)
Theorem crack_time_from_76_bits (e : R) :
  76 <= e -> e < 1024 ->
  estimate_crack_time e = Returned "Millions of years".
Proof.
  intros Lo Hi.
  destruct (estimate_crack_time_table e Hi) as (_ & _ & _ & _ & _ & _ & T).
  apply Rpower_2_mono in Lo.
  rewrite (Rpower_2_IZR 76) in Lo by lia.
  change (2 ^ 76)%Z with 75557863725914323419136%Z in Lo.
  assert (S : 1000001 * 31536000 <= Rpower 2 e / (2 * 1e9)).
  { apply (Rmult_le_reg_r (2 * 1e9)); [lra|].
    unfold Rdiv. rewrite (Rmult_assoc (Rpower 2 e)), Rinv_l by lra. lra. }
  rewrite T by lra. cbv zeta.
  assert (Y : (1000001 <= Zfloor (Rpower 2 e / (2 * 1e9) / 31536000))%Z).
  { apply Zfloor_lub. lra. }
  destruct (Z.ltb_spec 1000000
              (Zfloor (Rpower 2 e / (2 * 1e9) / 31536000))) as [_|N];
    [reflexivity | lia].
Qed.

Local Close Scope R_scope.

Lemma crack_time_below_30_bits_witness :
  estimate_crack_time 30 = Returned "Less than a second".
Proof. apply (crack_time_below_30_bits 30). lra. Defined.

Lemma crack_time_from_76_bits_witness :
  estimate_crack_time 100 = Returned "Millions of years".
Proof. apply (crack_time_from_76_bits 100); lra. Defined.

(** ** Which passwords are analysed *)

Section Outcome.
Context {U : UnicodeData}.

(** A non-empty password is analysed when its keyspace
    [charset_size ** len] is below 2^1024 or no class of the alphabet is
    present, and [OverflowError] is raised otherwise.  Up to 134 characters
    the analysis is always returned; from 309 characters on it is never
    returned unless no class is present. *)
Theorem check_password_strength_outcome (p : pystr) :
  p <> [] ->
  (charset_size p = 0 \/ charset_size p ^ len p < 2 ^ 1024 <->
   exists r, check_password_strength p = Returned (Some r)) /\
  (charset_size p <> 0 /\ 2 ^ 1024 <= charset_size p ^ len p <->
   check_password_strength p = Raised OverflowError) /\
  (len p <= 134 -> exists r, check_password_strength p = Returned (Some r)) /\
  (309 <= len p -> charset_size p <> 0 ->
   check_password_strength p = Raised OverflowError).
Proof.
  intros Hp.
  assert (K : keyspace p < float_limit <->
              charset_size p = 0 \/ charset_size p ^ len p < 2 ^ 1024).
  { unfold keyspace, float_limit.
    destruct (Z.eqb_spec (charset_size p) 0) as [Z0|NZ].
    - split; [intros _; left; exact Z0 | intros _; reflexivity].
    - split; [intros H; right; exact H | intros [H|H]; [contradiction|exact H]]. }
  assert (D : (exists r, check_password_strength p = Returned (Some r)) \/
              check_password_strength p = Raised OverflowError).
  { destruct (Z.lt_ge_cases (keyspace p) float_limit) as [L|G].
    - left. rewrite check_password_strength_keyspace by exact Hp.
      destruct (crack_time_of_keyspace_defined _ L) as [ct ->].
      cbn [bind]. eexists. reflexivity.
    - right. apply check_password_strength_raises; assumption. }
  assert (R1 : (exists r, check_password_strength p = Returned (Some r)) ->
               keyspace p < float_limit).
  { intros [r Hr]. destruct (Z.lt_ge_cases (keyspace p) float_limit) as [L|G];
      [exact L|].
    rewrite (check_password_strength_raises p Hp G) in Hr. discriminate Hr. }
  assert (R2 : check_password_strength p = Raised OverflowError ->
               float_limit <= keyspace p).
  { intros Hr. destruct (Z.lt_ge_cases (keyspace p) float_limit) as [L|G];
      [|exact G].
    rewrite check_password_strength_keyspace in Hr by exact Hp.
    destruct (crack_time_of_keyspace_defined _ L) as [ct E].
    rewrite E in Hr. discriminate Hr. }
  split; [|split; [|split]].
  - split.
    + intros H. apply K in H. destruct D as [D|D]; [exact D|].
      apply R2 in D. lia.
    + intros H. apply K. apply R1. exact H.
  - split.
    + intros [NZ H]. apply check_password_strength_raises; [exact Hp|].
      unfold keyspace, float_limit.
      destruct (Z.eqb_spec (charset_size p) 0); [contradiction | exact H].
    + intros H. apply R2 in H. unfold keyspace, float_limit in H.
      destruct (Z.eqb_spec (charset_size p) 0) as [Z0|NZ].
      * exfalso. revert H. vm_compute. intros H. apply H. reflexivity.
      * split; assumption.
  - apply check_password_strength_returns. exact Hp.
  - intros Hl NZ. apply check_password_strength_raises; [exact Hp|].
    unfold keyspace, float_limit.
    destruct (Z.eqb_spec (charset_size p) 0); [contradiction|].
    pose proof (charset_size_positive p NZ) as Lo.
    apply Z.le_trans with (10 ^ 309); [vm_compute; discriminate|].
    apply Z.le_trans with (10 ^ len p).
    + apply Z.pow_le_mono_r; lia.
    + apply Z.pow_le_mono_l. lia.
Qed.

End Outcome.

Lemma check_password_strength_outcome_witness :
  (exists r, @check_password_strength latin1_data (str "P@ssw0rd123")
             = Returned (Some r)) /\
  @charset_size latin1_data (str "P@ssw0rd123") ^ len (str "P@ssw0rd123")
    < 2 ^ 1024.
Proof.
  destruct (@check_password_strength_outcome latin1_data (str "P@ssw0rd123")
              ltac:(discriminate)) as (_ & _ & H & _).
  split; [apply H; vm_compute; discriminate | reflexivity].
Defined.

(** ** Generated passwords *)

Lemma punctuation_members (c : codepoint) :
  In c punctuation ->
  33 <= c <= 126 /\ ~ 48 <= c <= 57 /\ ~ 65 <= c <= 90 /\ ~ 97 <= c <= 122.
Proof.
  intros H. cbv in H.
  repeat (destruct H as [H|H]; [lia|]). destruct H.
Qed.

Section GeneratedPasswords.
Context {U : UnicodeData} {G : SecureRandom}.

(** What a returned password is, for every requested length: [range] is
    empty for a negative one. *)
Lemma generate_password_inv
    (n : Z) (use_upper use_lower use_digits use_special : bool) (s : pystr) :
  generate_password n use_upper use_lower use_digits use_special
    = Returned (Some s) ->
  len s = Z.max 0 n /\
  Forall (allowed use_upper use_lower use_digits use_special) s.
Proof.
  unfold generate_password.
  destruct (build_charset use_upper use_lower use_digits use_special)
    as [|c0 cs] eqn:E; [discriminate|].
  destruct (join_choices_members (c0 :: cs) (Z.to_nat n) ltac:(discriminate) 0%nat)
    as [s' [Hs [Hl Hall]]].
  rewrite Hs. cbn [bind]. intros H. injection H as <-. split.
  - unfold len. rewrite Hl. lia.
  - rewrite Forall_forall in Hall |- *. intros c Hc.
    apply build_charset_members. rewrite E. apply Hall. exact Hc.
Qed.

Lemma allowed_is_ascii (up lo di sp : bool) (c : codepoint) :
  allowed up lo di sp c -> is_ascii c.
Proof.
  unfold allowed, is_ascii.
  intros [[_ H]|[[_ H]|[[_ H]|[_ H]]]]; try lia.
  apply punctuation_members in H. lia.
Qed.

(** A generated password holds no character of a class that was not
    selected, and no character beyond ASCII: the class tests of the analysis
    can only succeed for the selected classes. *)
Theorem generated_password_only_selected_classes
    (n : Z) (use_upper use_lower use_digits use_special : bool) (s : pystr) :
  generate_password n use_upper use_lower use_digits use_special
    = Returned (Some s) ->
  (has_lower s = true -> use_lower = true) /\
  (has_upper s = true -> use_upper = true) /\
  (has_digit s = true -> use_digits = true) /\
  (has_special s = true -> use_special = true) /\
  any (fun c => 127 <? c) s = false.
Proof.
  intros H. apply generate_password_inv in H. destruct H as [_ Hall].
  rewrite Forall_forall in Hall.
  assert (Hrange : forall c, In c s -> in_range 97 122 c = true ->
                             use_lower = true).
  { intros c Hc Hr. unfold in_range in Hr. apply andb_true_iff in Hr.
    destruct Hr as [A B]. apply Z.leb_le in A. apply Z.leb_le in B.
    destruct (Hall c Hc) as [[F _]|[[_ F]|[[_ F]|[_ F]]]];
      [exact F | lia | lia | apply punctuation_members in F; lia]. }
  repeat split.
  - intros Hl. apply any_exists in Hl. destruct Hl as [c [Hc Hp]].
    rewrite islower_ascii in Hp by (eapply allowed_is_ascii; apply Hall; exact Hc).
    exact (Hrange c Hc Hp).
  - intros Hl. apply any_exists in Hl. destruct Hl as [c [Hc Hp]].
    rewrite isupper_ascii in Hp by (eapply allowed_is_ascii; apply Hall; exact Hc).
    unfold in_range in Hp. apply andb_true_iff in Hp.
    destruct Hp as [A B]. apply Z.leb_le in A. apply Z.leb_le in B.
    destruct (Hall c Hc) as [[_ F]|[[F _]|[[_ F]|[_ F]]]];
      [lia | exact F | lia | apply punctuation_members in F; lia].
  - intros Hl. apply any_exists in Hl. destruct Hl as [c [Hc Hp]].
    rewrite isdigit_ascii in Hp by (eapply allowed_is_ascii; apply Hall; exact Hc).
    unfold in_range in Hp. apply andb_true_iff in Hp.
    destruct Hp as [A B]. apply Z.leb_le in A. apply Z.leb_le in B.
    destruct (Hall c Hc) as [[_ F]|[[_ F]|[[F _]|[_ F]]]];
      [lia | lia | exact F | apply punctuation_members in F; lia].
  - intros Hl. apply any_exists in Hl. destruct Hl as [c [Hc Hp]].
    apply char_in_In in Hp. apply punctuation_members in Hp.
    destruct (Hall c Hc) as [[_ F]|[[_ F]|[[_ F]|[F _]]]];
      [lia | lia | lia | exact F].
  - destruct (any (fun c => 127 <? c) s) eqn:E; [|reflexivity].
    apply any_exists in E. destruct E as [c [Hc Hp]].
    apply Z.ltb_lt in Hp.
    pose proof (allowed_is_ascii _ _ _ _ c (Hall c Hc)) as [_ A]. lia.
Qed.

(** The "Generate Password" button: the generated value is true in
    [if generated_pwd:] exactly when the length is at least 1 and a class is
    selected; then it is a non-empty string of that length, and for a length
    of at most 134 (the slider stops at 32) its analysis is returned, with
    the length criterion met from 8 characters on. *)
Theorem generate_then_analyse
    (n : Z) (use_upper use_lower use_digits use_special : bool) :
  exists g,
    generate_password n use_upper use_lower use_digits use_special
      = Returned g /\
    (truthy g = true <->
     1 <= n /\ use_upper || use_lower || use_digits || use_special = true) /\
    (truthy g = true -> n <= 134 ->
     exists s r,
       g = Some s /\ len s = n /\
       check_password_strength s = Returned (Some r) /\
       crit_length (criteria_map r) = (8 <=? n)).
Proof.
  unfold generate_password.
  destruct (build_charset use_upper use_lower use_digits use_special)
    as [|c0 cs] eqn:E.
  - apply build_charset_empty in E. destruct E as (-> & -> & -> & ->).
    exists None. split; [reflexivity|]. split.
    + split; [discriminate | intros [_ H]; discriminate H].
    + discriminate.
  - assert (F : use_upper || use_lower || use_digits || use_special = true).
    { destruct use_upper, use_lower, use_digits, use_special;
        try reflexivity; discriminate E. }
    destruct (join_choices_members (c0 :: cs) (Z.to_nat n) ltac:(discriminate) 0%nat)
      as [s [Hs [Hl _]]].
    exists (Some s). rewrite Hs. cbn [bind]. split; [reflexivity|].
    assert (T : truthy (Some s) = true <-> 1 <= n).
    { destruct s as [|c s]; simpl in *.
      - split; [discriminate | lia].
      - split; [lia | reflexivity]. }
    split.
    + rewrite T. tauto.
    + intros Ht Hn. apply T in Ht.
      assert (Ls : len s = n) by (unfold len; rewrite Hl; lia).
      assert (Ne : s <> []) by (intros ->; unfold len in Ls; simpl in Ls; lia).
      destruct (check_password_strength_returns s Ne ltac:(lia)) as [r Hr].
      exists s, r. repeat split; try assumption.
      apply check_password_strength_inv in Hr.
      destruct Hr as (_ & _ & _ & _ & -> & _).
      unfold criteria_of. cbn [crit_length]. rewrite Ls. reflexivity.
Qed.

End GeneratedPasswords.

Lemma generated_password_only_selected_classes_witness :
  exists s,
    @generate_password counting_source 12 false true true false
      = Returned (Some s) /\
    @has_upper latin1_data s = false /\
    has_special s = false.
Proof.
  eexists. split; [vm_compute; reflexivity|].
  pose proof (@generated_password_only_selected_classes latin1_data
                counting_source 12 false true true false _ eq_refl)
    as (_ & Hu & _ & Hs & _).
  split.
  - destruct (@has_upper latin1_data _) eqn:E; [|reflexivity].
    specialize (Hu eq_refl). discriminate Hu.
  - destruct (has_special _) eqn:E; [|reflexivity].
    specialize (Hs eq_refl). discriminate Hs.
Defined.

(** ** The strongest password of a comparison *)

Lemma max_from_split {A : Type} (key : A -> Z) (rest : list A) :
  forall (best : A) (pre0 mid : list A),
    (forall x, In x pre0 -> key x < key best) ->
    (forall x, In x mid -> key x <= key best) ->
    exists pre post,
      pre0 ++ best :: mid ++ rest = pre ++ max_from key best rest :: post /\
      (forall x, In x pre -> key x < key (max_from key best rest)) /\
      (forall x, In x post -> key x <= key (max_from key best rest)).
Proof.
  induction rest as [|x rest IH]; intros best pre0 mid Hpre Hmid.
  - exists pre0, mid. rewrite app_nil_r. simpl. repeat split; assumption.
  - cbn [max_from]. destruct (Z.ltb_spec (key best) (key x)) as [L|L].
    + destruct (IH x (pre0 ++ best :: mid) []) as (pre & post & E & P & Q).
      * intros y Hy. apply in_app_or in Hy. destruct Hy as [Hy|[<-|Hy]].
        -- specialize (Hpre y Hy). lia.
        -- exact L.
        -- specialize (Hmid y Hy). lia.
      * intros y [].
      * exists pre, post. split; [|split; assumption].
        rewrite <- E. rewrite <- app_assoc. reflexivity.
    + destruct (IH best pre0 (mid ++ [x])) as (pre & post & E & P & Q).
      * exact Hpre.
      * intros y Hy. apply in_app_or in Hy. destruct Hy as [Hy|[<-|[]]].
        -- exact (Hmid y Hy).
        -- exact L.
      * exists pre, post. split; [|split; assumption].
        rewrite <- E. rewrite <- app_assoc. reflexivity.
Qed.

Lemma seq_split_position (n i : nat) (pre post : list nat) :
  seq 0 n = pre ++ i :: post -> List.length pre = i /\ (i < n)%nat.
Proof.
  intros E.
  assert (Hl : List.length (seq 0 n) = (List.length pre + S (List.length post))%nat).
  { rewrite E, length_app. reflexivity. }
  rewrite length_seq in Hl.
  assert (Hn : nth (List.length pre) (seq 0 n) 0%nat = i).
  { rewrite E, app_nth2 by lia. rewrite Nat.sub_diag. reflexivity. }
  rewrite seq_nth in Hn by lia. simpl in Hn. split; lia.
Qed.

(** [best_idx] is the position of the first largest score: no score is
    larger, every earlier score is smaller; it fails with [ValueError] only
    on an empty column of scores. *)
Theorem best_idx_first_maximum (scores : list Z) :
  match best_idx scores with
  | Returned i =>
      (i < List.length scores)%nat /\
      (forall j, (j < List.length scores)%nat ->
                 nth j scores 0 <= nth i scores 0) /\
      (forall j, (j < i)%nat -> nth j scores 0 < nth i scores 0)
  | Raised x => scores = [] /\ x = ValueError
  end.
Proof.
  unfold best_idx.
  destruct scores as [|a scores]; [split; reflexivity|].
  set (n := List.length (a :: scores)).
  set (key := fun i : nat => nth i (a :: scores) 0).
  assert (Hs : seq 0 n = 0%nat :: seq 1 (List.length scores)) by reflexivity.
  rewrite Hs. cbn [max_by_key].
  destruct (max_from_split key (seq 1 (List.length scores)) 0%nat [] [])
    as (pre & post & E & P & Q); try (intros x []).
  cbn [app] in E. rewrite <- Hs in E.
  set (i := max_from key 0%nat (seq 1 (List.length scores))) in *.
  destruct (seq_split_position n i pre post E) as [Lp Li].
  split; [exact Li|]. split.
  - intros j Hj.
    assert (Hin : In j (seq 0 n)) by (apply in_seq; lia).
    rewrite E in Hin. apply in_app_or in Hin.
    destruct Hin as [Hin|[<-|Hin]].
    + specialize (P j Hin). unfold key in P. lia.
    + lia.
    + exact (Q j Hin).
  - intros j Hj. apply (P j).
    assert (Hnth : nth j (seq 0 n) 0%nat = j) by (rewrite seq_nth; lia).
    rewrite E, app_nth1 in Hnth by lia.
    rewrite <- Hnth. apply nth_In. lia.
Qed.

(** Two passwords with the same best score: the first one is named. *)
Example best_idx_tie : best_idx [60; 80; 45; 80] = Returned 1%nat.
Proof. reflexivity. Qed.

(** ** Breached passwords and the score *)

Lemma common_breached_entries (e : pystr) :
  In e common_breached ->
  6 <= len e <= 9 /\
  (forall c, In c e -> 97 <= c <= 122 \/ 48 <= c <= 57).
Proof.
  intros H.
  assert (B : forallb (fun e => (6 <=? len e) && (len e <=? 9) &&
                forallb (fun c => in_range 97 122 c || in_range 48 57 c) e)
                common_breached = true) by reflexivity.
  rewrite forallb_forall in B. specialize (B e H).
  apply andb_true_iff in B. destruct B as [B1 B2].
  apply andb_true_iff in B1. destruct B1 as [L6 L9].
  apply Z.leb_le in L6. apply Z.leb_le in L9.
  split; [lia|]. intros c Hc.
  rewrite forallb_forall in B2. specialize (B2 c Hc).
  unfold in_range in B2. apply orb_true_iff in B2.
  destruct B2 as [B|B]; apply andb_true_iff in B; destruct B as [X Y];
    apply Z.leb_le in X; apply Z.leb_le in Y; [left|right]; lia.
Qed.

Section BreachedScore.
Context {U : UnicodeData}.

(** An ASCII password that [check_common_breach] flags has 6 to 9
    characters and no special character; its score is 65 at most, so it is
    never rated "Strong". *)
Theorem breached_password_never_strong (p : pystr) (r : analysis) :
  Forall is_ascii p ->
  check_common_breach p = true ->
  check_password_strength p = Returned (Some r) ->
  6 <= len p <= 9 /\ has_special p = false /\
  score r <= 65 /\ strength r <> "Strong".
Proof.
  intros Ha Hb Hr.
  rewrite check_common_breach_ascii in Hb by exact Ha.
  apply existsb_exists in Hb. destruct Hb as [e [He Eq]].
  apply str_eqb_eq in Eq.
  destruct (common_breached_entries e He) as [Hlen Hplain].
  assert (Lp : len p = len e).
  { unfold len. rewrite <- Eq, length_map. reflexivity. }
  assert (Hsp : has_special p = false).
  { destruct (has_special p) eqn:E; [|reflexivity]. exfalso.
    apply any_exists in E. destruct E as [c [Hc Hp]].
    apply char_in_In in Hp. apply punctuation_members in Hp.
    assert (Hin : In (ascii_lower c) e).
    { rewrite <- Eq. apply in_map. exact Hc. }
    assert (El : ascii_lower c = c).
    { unfold ascii_lower, in_range.
      destruct (Z.leb_spec 65 c); destruct (Z.leb_spec c 90);
        try reflexivity; lia. }
    rewrite El in Hin. specialize (Hplain c Hin). lia. }
  apply check_password_strength_inv in Hr.
  destruct Hr as (_ & Hs & Hl & _).
  assert (Hraw : raw_score p <= 65).
  { rewrite raw_score_sum, Hsp. unfold weight.
    destruct (length_points_cases (len p)) as [[_ ->]|[[_ ->]|[L _]]];
      [| |lia]; case_checks; lia. }
  repeat split; try lia.
  - exact Hsp.
  - rewrite Hs. unfold py_max, py_min. lia.
  - rewrite Hl. unfold strength_level.
    destruct (Z.leb_spec 75 (raw_score p)) as [G|_]; [lia|].
    destruct (50 <=? raw_score p); cbn; discriminate.
Qed.

End BreachedScore.

Lemma breached_password_never_strong_witness :
  exists r,
    @check_common_breach latin1_data (str "TrustNo1") = true /\
    @check_password_strength latin1_data (str "TrustNo1")
      = Returned (Some r) /\
    score r = 65 /\ strength r = "Medium" /\ strength r <> "Strong".
Proof.
  destruct (@check_password_strength_returns latin1_data (str "TrustNo1"))
    as [r Hr]; [discriminate | vm_compute; discriminate |].
  exists r. split; [reflexivity|]. split; [exact Hr|].
  pose proof (check_password_strength_inv _ _ Hr) as (_ & Hs & Hl & _).
  split; [rewrite Hs; reflexivity|]. split; [rewrite Hl; reflexivity|].
  apply (@breached_password_never_strong latin1_data (str "TrustNo1") r).
  - apply Forall_is_ascii. reflexivity.
  - reflexivity.
  - exact Hr.
Defined.

(** ** The two pattern checks, read as statements about the password *)

Lemma has_repeated_run_cons (a : codepoint) (t : pystr) :
  has_repeated_run t = true -> has_repeated_run (a :: t) = true.
Proof.
  destruct t as [|b [|c t]]; try discriminate.
  intros H.
  change (has_repeated_run (a :: b :: c :: t)) with
    ((negb (a =? 10) && (a =? b) && (b =? c)) || has_repeated_run (b :: c :: t)).
  rewrite H. apply orb_true_r.
Qed.

(** The regular expression of the repeated-characters check matches exactly
    when some character other than a line feed stands three times in a
    row. *)
Theorem has_repeated_run_iff (s : pystr) :
  has_repeated_run s = true <->
  exists pre c post, s = pre ++ c :: c :: c :: post /\ c <> 10.
Proof.
  split.
  - induction s as [|a s IH]; [discriminate|].
    destruct s as [|b [|c s]]; try discriminate.
    intros H.
    change (has_repeated_run (a :: b :: c :: s)) with
      ((negb (a =? 10) && (a =? b) && (b =? c))
       || has_repeated_run (b :: c :: s)) in H.
    apply orb_true_iff in H. destruct H as [H|H].
    + apply andb_true_iff in H. destruct H as [H Hbc].
      apply andb_true_iff in H. destruct H as [Hn Hab].
      apply Z.eqb_eq in Hab. apply Z.eqb_eq in Hbc.
      apply negb_true_iff in Hn. apply Z.eqb_neq in Hn. subst b c.
      exists [], a, s. split; [reflexivity | exact Hn].
    + destruct (IH H) as (pre & x & post & E & Hx).
      exists (a :: pre), x, post. split; [|exact Hx].
      rewrite E. reflexivity.
  - intros (pre & c & post & -> & Hc).
    induction pre as [|a pre IH].
    + cbn [app].
      change (has_repeated_run (c :: c :: c :: post)) with
        ((negb (c =? 10) && (c =? c) && (c =? c))
         || has_repeated_run (c :: c :: post)).
      rewrite Z.eqb_refl. apply Z.eqb_neq in Hc. rewrite Hc. reflexivity.
    + cbn [app]. apply has_repeated_run_cons. exact IH.
Qed.

Lemma startswith_iff (s pre : pystr) :
  startswith s pre = true <-> exists post, s = pre ++ post.
Proof.
  revert s. induction pre as [|a pre IH]; intros s.
  - destruct s; simpl; split; intros _; try reflexivity; eexists; reflexivity.
  - destruct s as [|b s]; simpl.
    + split; [discriminate | intros [post E]; discriminate E].
    + rewrite andb_true_iff, Z.eqb_eq, IH. split.
      * intros [-> [post ->]]. exists post. reflexivity.
      * intros [post E]. injection E as -> ->. split; [reflexivity|].
        exists post. reflexivity.
Qed.

Lemma contains_iff (s sub : pystr) :
  contains s sub = true <-> exists pre post, s = pre ++ sub ++ post.
Proof.
  induction s as [|a s IH].
  - cbn [contains]. rewrite orb_false_r, startswith_iff. split.
    + intros [post E]. exists [], post. exact E.
    + intros (pre & post & E). destruct pre as [|x pre]; [|discriminate E].
      exists post. exact E.
  - cbn [contains]. rewrite orb_true_iff, startswith_iff, IH. split.
    + intros [[post E]|(pre & post & E)].
      * exists [], post. exact E.
      * exists (a :: pre), post. rewrite E. reflexivity.
    + intros (pre & post & E). destruct pre as [|x pre].
      * left. exists post. exact E.
      * right. injection E as -> E. exists pre, post. exact E.
Qed.

Section PatternCheck.
Context {U : UnicodeData}.

(** The common-patterns check fires exactly when the lower-cased password
    contains one of the six patterns as a substring. *)
Theorem has_common_iff (p : pystr) :
  has_common p = true <->
  exists pattern pre post,
    In pattern common_patterns /\ py_lower p = pre ++ pattern ++ post.
Proof.
  unfold has_common. rewrite any_exists. split.
  - intros [pattern [Hin Hc]]. apply contains_iff in Hc.
    destruct Hc as (pre & post & E). exists pattern, pre, post.
    split; assumption.
  - intros (pattern & pre & post & Hin & E). exists pattern.
    split; [exact Hin|]. apply contains_iff. exists pre, post. exact E.
Qed.

End PatternCheck.
